(** * WisianCorp: the generation session engine of [src/index.tsx]

    A shallow embedding of the stateful core of the [App] component: the
    tool catalog of [src/constants.ts], the prompt built inside
    [handleGenerate], the streaming loop with its [try]/[catch]/[finally],
    the history vault kept in [savedResources] and its snapshot under the
    [wisian_history] key of [localStorage].

    Conventions.
    - A JavaScript string is a [string]: a sequence of code units below 256.
    - A React state setter called by a handler is an [Effect] in the
      handler's trace; the store after the handler is the fold of the trace
      over the store before it ([run]).  A handler reads state only through
      the values captured by its closure, that is the store it is given.
    - An exception is a value of [JsError]; [M] is the trace-and-exception
      monad in which the handlers are written. *)

From Stdlib Require Import String Ascii List Bool Arith ZArith Lia.
From Stdlib Require Import DecimalString.
Import ListNotations.
Local Open Scope string_scope.
Local Open Scope list_scope.

Set Implicit Arguments.

(** ** JavaScript strings *)

Module Js.

Definition LF : string := String "010"%char "".

(** The double quote, which occurs inside one catalog prompt. *)
Definition DQ : string := String (ascii_of_nat 34) "".

(** [!!s] for a string: only the empty string is falsy. *)
Definition truthy (s : string) : bool :=
  match s with
  | EmptyString => false
  | String _ _ => true
  end.

(** [!!v] for [string | undefined]. *)
Definition truthy_opt (v : option string) : bool :=
  match v with
  | None => false
  | Some s => truthy s
  end.

(** [a || b] on strings. *)
Definition or_else (a b : string) : string :=
  if truthy a then a else b.

(** [hay.includes(needle)]. *)
Fixpoint includes (needle hay : string) : bool :=
  if String.prefix needle hay then true
  else match hay with
       | EmptyString => false
       | String _ rest => includes needle rest
       end.

(** White space and line terminators below code unit 256, the
    characters [String.prototype.trim] strips: TAB, LF, VT, FF, CR,
    SPACE and NBSP. *)
Definition is_space (c : ascii) : bool :=
  let n := nat_of_ascii c in
  (Nat.leb 9 n && Nat.leb n 13) || Nat.eqb n 32 || Nat.eqb n 160.

Fixpoint trimStart (s : string) : string :=
  match s with
  | EmptyString => EmptyString
  | String c rest => if is_space c then trimStart rest else s
  end.

(** [trimEnd], by structural recursion: a character is dropped when it
    is a space and everything after it has been dropped. *)
Fixpoint trimEnd (s : string) : string :=
  match s with
  | EmptyString => EmptyString
  | String c rest =>
      match trimEnd rest with
      | EmptyString => if is_space c then EmptyString else String c EmptyString
      | r => String c r
      end
  end.

Definition trim (s : string) : string := trimEnd (trimStart s).

(** A string of white space only (the empty string included). *)
Fixpoint all_space (s : string) : bool :=
  match s with
  | EmptyString => true
  | String c rest => is_space c && all_space rest
  end.

(** [n.toString()] for an integer. *)
Definition number_toString (n : Z) : string :=
  NilZero.string_of_int (Z.to_int n).

End Js.

(** ** The catalog: [src/constants.ts] *)

(** An entry of [TOOL_CATEGORIES].  Its fields [id], [name] and [icon]
    are prefixed here, [id] and [name] being fields of [ToolConfig]. *)
Record Category : Type := mkCategory
  { cat_id : string;
    cat_name : string;
    cat_icon : string }.

Definition TOOL_CATEGORIES : list Category :=
  [ mkCategory "leadership" "Executive" "fa-building";
    mkCategory "teacher" "Educators" "fa-chalkboard-user";
    mkCategory "admin" "Operations" "fa-briefcase";
    mkCategory "learner" "Development" "fa-graduation-cap" ].

(** [modelTier: 'flash' | 'pro'] *)
Inductive ModelTier : Type := flash | pro.

Record ToolConfig : Type := mkTool
  { id : string;
    categoryId : string;
    name : string;
    description : string;
    basePrompt : string;
    examplePrompt : string;
    modelTier : ModelTier }.

Definition TOOLS_CONFIG : list ToolConfig :=
  [ mkTool "strategy-toolkit" "leadership" "Strategic Roadmap"
      "Corporate-grade strategic planning and change management frameworks."
      "Draft a high-level strategic roadmap or executive memo. Treat the Principal as a CEO. Use corporate management frameworks (SWOT, OKRs) applied to education."
      "Scenario: transitioning a traditional school to a digital-first curriculum over 24 months with limited budget."
      pro;
    mkTool "sgb-governance" "leadership" "Governance & Compliance"
      "Legally sound policy drafting for Governing Bodies."
      "Draft a formal governance policy or resolution. Ensure strict adherence to South African legal frameworks and corporate governance best practices."
      "Draft a Conflict of Interest policy for the School Governing Body members."
      pro;
    mkTool "lesson-plan" "teacher" "Curriculum Architect"
      "High-fidelity, CAPS-aligned instructional design."
      "Design a comprehensive, high-fidelity lesson plan. Focus on innovative pedagogy, differentiation strategies, and measurable outcomes."
      "Grade 11 Physical Sciences: Intermolecular Forces. 60-minute active learning session."
      pro;
    mkTool "assessment-gen" "teacher" "Assessment Engine"
      "Bloom's Taxonomy aligned testing instruments."
      "Create a formal assessment instrument with a marking matrix and cognitive level analysis (Bloom's)."
      "Grade 10 Business Studies: Creative Thinking and Problem Solving. Case study based assessment."
      flash;
    mkTool "parent-comms" "admin" "Stakeholder Comms"
      "Professional crisis and routine communication generator."
      "Draft a professional stakeholder communication. Tone should be reassuring, clear, and authoritative yet empathetic."
      "Urgent notice regarding a change in exam timetables due to unforeseen circumstances."
      flash;
    mkTool "fundraising-pro" "admin" "Capital Raising"
      "Corporate sponsorship proposals and grant applications."
      "Write a persuasive corporate sponsorship proposal. Focus on CSI (Corporate Social Investment) benefits and tangible ROI for the sponsor."
      "Proposal to a telecommunications company to sponsor fibre internet installation."
      pro;
    mkTool "study-guide" "learner" "Knowledge Synthesizer"
      "Rapid revision summaries and concept maps."
      ("Synthesize complex curriculum topics into high-impact " ++ Js.DQ
         ++ "Cheat Sheets" ++ Js.DQ
         ++ " or summaries. Use mnemonics and clear structure.")
      "Grade 12 History: The collapse of the USSR. Key timeline and causes."
      flash ].

(** ** The data model of [src/index.tsx] *)

(** [interface SavedResource].  Its [id] field is [res_id] here, the name
    [id] being taken by [ToolConfig]. *)
Record SavedResource : Type := mkResource
  { res_id : string;
    toolName : string;
    categoryName : string;
    content : string;
    timestamp : Z }.

(** [apiStatus: 'online' | 'error' | 'idle'] *)
Module ApiStatus.
Inductive t : Type := online | error | idle.
End ApiStatus.

(** What the [wisian_history] item of [localStorage] holds, classified by
    what the handler does with it: the empty string, which [if (history)]
    skips; a non-empty text on which [JSON.parse] throws; a text that
    [JSON.parse] reads as an array of [SavedResource], the only shape the
    declared type of [savedResources] admits.  [JSON.stringify] of a vault
    writes a text of the third kind. *)
Inductive StoredText : Type :=
| EmptyText
| Malformed
| WellFormed (snapshot : list SavedResource).

(** The React state of [App] that the engine reads and writes, together
    with the [wisian_history] item ([None]: [getItem] gives [null]). *)
Record Store : Type := mkStore
  { activeCategory : string;
    selectedTool : ToolConfig;
    promptInput : string;
    isGenerating : bool;
    output : string;
    savedResources : list SavedResource;
    apiStatus : ApiStatus.t;
    hasAccess : bool;
    wisian_history : option StoredText }.

(** A thrown value, seen through [error?.message]. *)
Record JsError : Type := mkError { message : option string }.

(** How an awaited promise settles. *)
Inductive Settled (A : Type) : Type :=
| Resolves (a : A)
| Rejects (e : JsError).
Arguments Rejects {A} e.

(** Modelled from the spec: [window.aistudio] is declared [any] in the
    source and its host is not in the repository; its interface is the
    credential host capability of section 6: [hasSelectedApiKey() ->
    boolean] and [openSelectKey() -> void], which may fail. *)
Record AiStudio : Type := mkAiStudio
  { hasSelectedApiKey : bool;
    openSelectKey : Settled unit }.

(** The argument of [ai.models.generateContentStream]. *)
Record Part : Type := mkPart { part_text : string }.
Record Content : Type := mkContent { role : string; parts : list Part }.
Record GenerateContentConfig : Type := mkConfig
  { systemInstruction : string;
    temperature_tenths : nat }.            (* temperature: 0.6 is 6 tenths *)
Record GenerateContentParameters : Type := mkParams
  { model : string;
    contents : list Content;
    config : GenerateContentConfig }.

(** Modelled from the spec: the response type of the [@google/genai]
    client is not in the repository; by section 6 the response is an
    ordered, finite sequence of increments, each exposing a [text]
    fragment to append.  The code reads [chunk.text]. *)
Record Chunk : Type := mkChunk { text : string }.

(** The response stream: finitely many increments, after which the
    iterator is done or throws. *)
Inductive StreamEnd : Type :=
| Closed
| Faulted (e : JsError).

Record ResponseStream : Type := mkStream
  { increments : list Chunk;
    ending : StreamEnd }.

(** Everything outside the component that one run of a handler meets. *)
Record Env : Type := mkEnv
  { API_KEY : option string;            (* process.env.API_KEY *)
    aistudio : option AiStudio;         (* window.aistudio *)
    terminal_view : bool;               (* getElementById('terminal-view') *)
    GoogleGenAI : option string -> option JsError;   (* the constructor *)
    generateContentStream :
      GenerateContentParameters -> Settled ResponseStream;
    Date_now : nat -> Z }.              (* the k-th reading of the clock *)

(** [setSavedResources] is called with a new array or with the updater
    [prev => [r, ...prev].slice(0, 15)]. *)
Inductive VaultUpdate : Type :=
| Replace (l : list SavedResource)
| Prepend15 (r : SavedResource).

Definition vault_update (u : VaultUpdate) (prev : list SavedResource)
  : list SavedResource :=
  match u with
  | Replace l => l
  | Prepend15 r => firstn 15 (r :: prev)
  end.

(** What a handler does to the world, in order. *)
Inductive Effect : Type :=
| setSelectedTool (t : ToolConfig)
| setIsGenerating (b : bool)
| setOutput (s : string)
| setSavedResources (u : VaultUpdate)
| setApiStatus (s : ApiStatus.t)
| setHasAccess (b : bool)
| scrollIntoView (element : string)
| new_GoogleGenAI (apiKey : option string)
| call_generateContentStream (p : GenerateContentParameters)
| call_openSelectKey
| call_hasSelectedApiKey
| console_error (label : string)
| alert (msg : string)
| setTimeout_scrollToId (element : string) (ms : nat)
| localStorage_removeItem.

(** ** The trace-and-exception monad *)

Definition M (A : Type) : Type := (list Effect * (JsError + A))%type.

Definition ret {A : Type} (a : A) : M A := ([], inr a).

Definition bind {A B : Type} (m : M A) (f : A -> M B) : M B :=
  match m with
  | (t, inl e) => (t, inl e)
  | (t, inr a) => let (t', r) := f a in (t ++ t', r)
  end.

Definition emit (e : Effect) : M unit := ([e], inr tt).

Definition throw {A : Type} (e : JsError) : M A := ([], inl e).

(** [try { body } catch (e) { handler e }] *)
Definition try_catch {A : Type} (body : M A) (handler : JsError -> M A) : M A :=
  match body with
  | (t, inl e) => let (t', r) := handler e in (t ++ t', r)
  | (t, inr a) => (t, inr a)
  end.

(** [try { body } finally { cleanup }]: the cleanup runs either way, and
    what the body returned or threw stands unless the cleanup throws. *)
Definition finally {A : Type} (body : M A) (cleanup : M unit) : M A :=
  match body, cleanup with
  | (t, r), (t', inr _) => (t ++ t', r)
  | (t, _), (t', inl e') => (t ++ t', inl e')
  end.

(** [await p] *)
Definition await {A : Type} (p : Settled A) : M A :=
  match p with
  | Resolves a => ret a
  | Rejects e => throw e
  end.

Definition trace {A : Type} (m : M A) : list Effect := fst m.
Definition outcome {A : Type} (m : M A) : JsError + A := snd m.

Declare Scope js_scope.
Delimit Scope js_scope with js.
Notation "x <- m ;; k" := (bind m (fun x => k))
  (at level 61, m at next level, right associativity) : js_scope.
Notation "m ;; k" := (bind m (fun _ => k))
  (at level 61, right associativity) : js_scope.
Local Open Scope js_scope.

(** ** The handlers of [App] *)

(** The three messages [handleGenerate] can publish instead of a result. *)
Definition ACCESS_DENIED : string :=
  "### Access Denied" ++ Js.LF ++
  "Wisian Corporation Protocol: Please authenticate to access the intelligence engine.".

Definition AUTHENTICATION_FAILED : string :=
  "### Authentication Failed" ++ Js.LF ++
  "Security Protocol: API Key invalid or missing. Please reconnect.".

Definition NETWORK_INTERRUPTION : string :=
  "### Network Interruption" ++ Js.LF ++
  "The Wisian Link is experiencing latency. Retrying connection...".

(** [error?.message?.includes(needle)], read as a condition. *)
Definition message_includes (e : JsError) (needle : string) : bool :=
  match message e with
  | Some m => Js.includes needle m
  | None => false
  end.

(** The template literal bound to [systemInstruction], before [.trim()]. *)
Definition systemInstruction_template : string :=
  Js.LF ++
  "        You are Wisian, the proprietary AI engine of Wisian Corporation." ++ Js.LF ++
  "        Your mission is to democratize high-tier corporate intelligence for the South African education sector." ++ Js.LF ++
  "        Guidelines:" ++ Js.LF ++
  "        - Output MUST be structured, professional, and authoritative." ++ Js.LF ++
  "        - Use South African English spelling and terminology." ++ Js.LF ++
  "        - Format as a high-end consultancy deliverable." ++ Js.LF ++
  "      ".

(** The template literal bound to [userPrompt], before [.trim()]. *)
Definition userPrompt_template (tool : ToolConfig) (promptInput : string)
  : string :=
  Js.LF ++
  "        **Directive:** Execute the following task using the "
    ++ name tool ++ " module." ++ Js.LF ++
  "        **Context:** "
    ++ Js.or_else promptInput "Standard operating procedure." ++ Js.LF ++
  "        **Core Task:** " ++ basePrompt tool ++ Js.LF ++
  "      ".

Definition userPrompt (tool : ToolConfig) (promptInput : string) : string :=
  Js.trim (userPrompt_template tool promptInput).

Definition modelName (tool : ToolConfig) : string :=
  match modelTier tool with
  | pro => "gemini-3-pro-preview"
  | flash => "gemini-3-flash-preview"
  end.

(** The request [handleGenerate] sends for a tool and a context. *)
Definition request (tool : ToolConfig) (promptInput : string)
  : GenerateContentParameters :=
  {| model := modelName tool;
     contents := [ {| role := "user";
                      parts := [ {| part_text := userPrompt tool promptInput |} ] |} ];
     config := {| systemInstruction := Js.trim systemInstruction_template;
                  temperature_tenths := 6 |} |}.

(** [for await (const chunk of responseStream)
       { accumulated += chunk.text; setOutput(accumulated); }]
    The result is [accumulated] after the loop. *)
Fixpoint for_await (chunks : list Chunk) (fin : StreamEnd)
  (accumulated : string) : M string :=
  match chunks with
  | [] =>
      match fin with
      | Closed => ret accumulated
      | Faulted e => throw e
      end
  | chunk :: rest =>
      let accumulated := (accumulated ++ text chunk)%string in
      emit (setOutput accumulated) ;;
      for_await rest fin accumulated
  end.

(** [TOOL_CATEGORIES.find(c => c.id === activeCategory)?.name || ''] *)
Definition activeCategoryName (activeCategory : string) : string :=
  match find (fun c => String.eqb (cat_id c) activeCategory) TOOL_CATEGORIES with
  | Some c => Js.or_else (cat_name c) ""
  | None => ""
  end.

(** The [try] block of [handleGenerate]. *)
Definition generate_body (env : Env) (st : Store) : M unit :=
  emit (new_GoogleGenAI (API_KEY env)) ;;
  match GoogleGenAI env (API_KEY env) with
  | Some e => throw e
  | None =>
      let params := request (selectedTool st) (promptInput st) in
      emit (call_generateContentStream params) ;;
      responseStream <- await (generateContentStream env params) ;;
      accumulated <-
        for_await (increments responseStream) (ending responseStream) "" ;;
      let newResource :=
        {| res_id := Js.number_toString (Date_now env 0);
           toolName := name (selectedTool st);
           categoryName := activeCategoryName (activeCategory st);
           content := accumulated;
           timestamp := Date_now env 1 |} in
      emit (setSavedResources (Prepend15 newResource))
  end.

(** The [catch] block of [handleGenerate]. *)
Definition generate_catch (env : Env) (error : JsError) : M unit :=
  emit (console_error "Generation error:") ;;
  (if message_includes error "Requested entity was not found" then
     emit (setHasAccess false) ;;
     emit (setApiStatus ApiStatus.error) ;;
     match aistudio env with
     | Some studio =>
         emit call_openSelectKey ;;
         await (openSelectKey studio) ;;
         emit (setHasAccess true) ;;
         emit (setApiStatus ApiStatus.online)
     | None => ret tt
     end
   else ret tt) ;;
  let msg :=
    if message_includes error "API_KEY"
    then AUTHENTICATION_FAILED
    else NETWORK_INTERRUPTION in
  emit (setOutput msg).

Definition handleGenerate (env : Env) (st : Store) : M unit :=
  if isGenerating st then ret tt
  else if negb (hasAccess st) && negb (Js.truthy_opt (API_KEY env)) then
    emit (setOutput ACCESS_DENIED)
  else
    emit (setIsGenerating true) ;;
    emit (setOutput "") ;;
    (if terminal_view env then emit (scrollIntoView "terminal-view")
     else ret tt) ;;
    finally
      (try_catch (generate_body env st) (generate_catch env))
      (emit (setIsGenerating false)).

(** [JSON.parse(history)]: a [SyntaxError] unless the text is well formed.
    The handler never looks at the error it catches. *)
Definition JSON_parse (history : StoredText) : M (list SavedResource) :=
  match history with
  | WellFormed snapshot => ret snapshot
  | EmptyText | Malformed => throw (mkError (Some "SyntaxError"))
  end.

(** [if (history)] on [string | null]. *)
Definition history_truthy (history : option StoredText) : bool :=
  match history with
  | None | Some EmptyText => false
  | Some Malformed | Some (WellFormed _) => true
  end.

(** First part of the mount effect: the history load. *)
Definition loadHistory (st : Store) : M unit :=
  let history := wisian_history st in
  if history_truthy history then
    match history with
    | Some h =>
        try_catch
          (parsed <- JSON_parse h ;; emit (setSavedResources (Replace parsed)))
          (fun e => emit (console_error "Failed to parse history"))
    | None => ret tt
    end
  else ret tt.

(** Second part of the mount effect. *)
Definition checkAuth (env : Env) : M unit :=
  match aistudio env with
  | Some studio =>
      emit call_hasSelectedApiKey ;;
      let hasKey := hasSelectedApiKey studio in
      emit (setHasAccess hasKey) ;;
      emit (setApiStatus (if hasKey then ApiStatus.online else ApiStatus.idle))
  | None =>
      let hasKey := Js.truthy_opt (API_KEY env) in
      emit (setHasAccess hasKey) ;;
      emit (setApiStatus (if hasKey then ApiStatus.online else ApiStatus.error))
  end.

(** The effect on [activeCategory]. *)
Definition categoryEffect (st : Store) : M unit :=
  match find (fun t => String.eqb (categoryId t) (activeCategory st)) TOOLS_CONFIG with
  | Some firstOfCat => emit (setSelectedTool firstOfCat)
  | None => ret tt
  end.

Definition handleAuth (env : Env) : M unit :=
  match aistudio env with
  | Some studio =>
      try_catch
        (emit call_openSelectKey ;;
         await (openSelectKey studio) ;;
         emit (setHasAccess true) ;;
         emit (setApiStatus ApiStatus.online) ;;
         emit (setTimeout_scrollToId "demo" 500))
        (fun e =>
           emit (console_error "Auth failed") ;;
           emit (setApiStatus ApiStatus.error))
  | None =>
      if Js.truthy_opt (API_KEY env) then
        emit (setHasAccess true) ;;
        emit (setApiStatus ApiStatus.online)
      else
        emit (alert "Security Clearance required. No API key detected in environment.")
  end.

(** [clearHistory]; [confirmed] is the answer to the [confirm] dialog. *)
Definition clearHistory (confirmed : bool) : M unit :=
  if confirmed then
    emit (setSavedResources (Replace [])) ;;
    emit localStorage_removeItem
  else ret tt.

Definition loadFromHistory (env : Env) (resource : SavedResource) : M unit :=
  emit (setOutput (content resource)) ;;
  if terminal_view env then emit (scrollIntoView "terminal-view") else ret tt.

(** ** From a trace to the next store *)

Definition apply (st : Store) (e : Effect) : Store :=
  match e with
  | setSelectedTool t =>
      mkStore (activeCategory st) t (promptInput st) (isGenerating st)
        (output st) (savedResources st) (apiStatus st) (hasAccess st)
        (wisian_history st)
  | setIsGenerating b =>
      mkStore (activeCategory st) (selectedTool st) (promptInput st) b
        (output st) (savedResources st) (apiStatus st) (hasAccess st)
        (wisian_history st)
  | setOutput s =>
      mkStore (activeCategory st) (selectedTool st) (promptInput st)
        (isGenerating st) s (savedResources st) (apiStatus st) (hasAccess st)
        (wisian_history st)
  | setSavedResources u =>
      mkStore (activeCategory st) (selectedTool st) (promptInput st)
        (isGenerating st) (output st) (vault_update u (savedResources st))
        (apiStatus st) (hasAccess st) (wisian_history st)
  | setApiStatus s =>
      mkStore (activeCategory st) (selectedTool st) (promptInput st)
        (isGenerating st) (output st) (savedResources st) s (hasAccess st)
        (wisian_history st)
  | setHasAccess b =>
      mkStore (activeCategory st) (selectedTool st) (promptInput st)
        (isGenerating st) (output st) (savedResources st) (apiStatus st) b
        (wisian_history st)
  | localStorage_removeItem =>
      mkStore (activeCategory st) (selectedTool st) (promptInput st)
        (isGenerating st) (output st) (savedResources st) (apiStatus st)
        (hasAccess st) None
  | scrollIntoView _ | new_GoogleGenAI _ | call_generateContentStream _
  | call_openSelectKey | call_hasSelectedApiKey | console_error _
  | alert _ | setTimeout_scrollToId _ _ => st
  end.

Definition run (st : Store) (tr : list Effect) : Store :=
  fold_left apply tr st.

(** The outputs published by [setOutput], in order. *)
Definition published (tr : list Effect) : list string :=
  flat_map (fun e => match e with setOutput s => [s] | _ => [] end) tr.

(** The requests sent to the generative service, in order. *)
Definition requests (tr : list Effect) : list GenerateContentParameters :=
  flat_map (fun e => match e with
                     | call_generateContentStream p => [p]
                     | _ => []
                     end) tr.

(** The updates of the vault, in order. *)
Definition vault_updates (tr : list Effect) : list VaultUpdate :=
  flat_map (fun e => match e with setSavedResources u => [u] | _ => [] end) tr.

(** The values given to the gate by [setApiStatus], in order. *)
Definition gate_trace (tr : list Effect) : list ApiStatus.t :=
  flat_map (fun e => match e with setApiStatus s => [s] | _ => [] end) tr.

(** The values given to [hasAccess], in order. *)
Definition access_trace (tr : list Effect) : list bool :=
  flat_map (fun e => match e with setHasAccess b => [b] | _ => [] end) tr.

(** The values given to the in-progress indicator, in order. *)
Definition progress_trace (tr : list Effect) : list bool :=
  flat_map (fun e => match e with setIsGenerating b => [b] | _ => [] end) tr.

(** The removals of the stored item, in order. *)
Definition removals (tr : list Effect) : list unit :=
  flat_map (fun e => match e with localStorage_removeItem => [tt] | _ => [] end) tr.

(** The effect on [savedResources]:
    [localStorage.setItem('wisian_history', JSON.stringify(savedResources))]. *)
Definition persist (st : Store) : Store :=
  mkStore (activeCategory st) (selectedTool st) (promptInput st)
    (isGenerating st) (output st) (savedResources st) (apiStatus st)
    (hasAccess st) (Some (WellFormed (savedResources st))).

(** The store once a handler's updates are rendered: React runs the
    persisting effect after a render in which [savedResources] was set. *)
Definition settle (st : Store) (tr : list Effect) : Store :=
  let st' := run st tr in
  match vault_updates tr with
  | [] => st'
  | _ :: _ => persist st'
  end.

(** ** The component over time *)

Definition default_category : Category := mkCategory "" "" "".
Definition default_tool : ToolConfig := mkTool "" "" "" "" "" "" flash.

(** The [useState] initial values, over the stored item the page finds. *)
Definition initialStore (item : option StoredText) : Store :=
  {| activeCategory := cat_id (nth 0 TOOL_CATEGORIES default_category);
     selectedTool := nth 0 TOOLS_CONFIG default_tool;
     promptInput := "";
     isGenerating := false;
     output := "";
     savedResources := [];
     apiStatus := ApiStatus.idle;
     hasAccess := false;
     wisian_history := item |}.

(** The effects of the first render, in source order. *)
Definition mount (env : Env) (st : Store) : M unit :=
  loadHistory st ;;
  checkAuth env ;;
  categoryEffect st.

(** The store after the page has loaded.  The persisting effect runs on
    the first render whatever the load did, and again once the loaded
    vault is rendered. *)
Definition startup (env : Env) (item : option StoredText) : Store :=
  persist (run (initialStore item) (trace (mount env (initialStore item)))).

Inductive Action : Type :=
| Generate (env : Env)
| Authenticate (env : Env)
| ClearHistory (confirmed : bool)
| LoadFromHistory (env : Env) (resource : SavedResource)
| SetPromptInput (value : string)
| SelectTool (tool : ToolConfig)
| Reload (env : Env).

Definition step (st : Store) (a : Action) : Store :=
  match a with
  | Generate env => settle st (trace (handleGenerate env st))
  | Authenticate env => settle st (trace (handleAuth env))
  | ClearHistory confirmed => settle st (trace (clearHistory confirmed))
  | LoadFromHistory env resource =>
      settle st (trace (loadFromHistory env resource))
  | SetPromptInput value =>
      mkStore (activeCategory st) (selectedTool st) value (isGenerating st)
        (output st) (savedResources st) (apiStatus st) (hasAccess st)
        (wisian_history st)
  | SelectTool tool => settle st [setSelectedTool tool]
  | Reload env => startup env (wisian_history st)
  end.

Definition steps (st : Store) (actions : list Action) : Store :=
  fold_left step actions st.

(** ** Observations on a trace, and the words of the claims *)

(** The concatenation of a list of texts. *)
Definition join (texts : list string) : string :=
  fold_right String.append "" texts.

(** The concatenations of the non-empty prefixes of the increments'
    texts, shortest first. *)
Definition prefix_texts (chunks : list Chunk) : list string :=
  map (fun k => join (map text (firstn k chunks))) (seq 1 (length chunks)).

(** The entry guard of [handleGenerate] lets the invocation through. *)
Definition guard_passes (env : Env) (st : Store) : bool :=
  hasAccess st || Js.truthy_opt (API_KEY env).

(** The part of the user instruction before the context: the directive
    naming the tool and the label of the context. *)
Definition directive (tool : ToolConfig) : string :=
  "**Directive:** Execute the following task using the " ++ name tool
    ++ " module." ++ Js.LF ++ "        **Context:** ".

(** The part of the user instruction after the context: the base prompt
    under its label, without the white space [trim] removes at the end. *)
Definition core_task (tool : ToolConfig) : string :=
  Js.LF ++ "        **Core Task:**"
    ++ Js.trimEnd (" " ++ basePrompt tool ++ Js.LF ++ "      ").

(** Newest first: time stamps never increase along the vault. *)
Fixpoint newest_first (vault : list SavedResource) : Prop :=
  match vault with
  | [] => True
  | r :: rest =>
      Forall (fun r' => (timestamp r' <= timestamp r)%Z) rest
      /\ newest_first rest
  end.

(** The clock readings that the generations of a run take for the time
    stamps of their entries ([timestamp: Date.now()]), in order. *)
Definition stamps (actions : list Action) : list Z :=
  flat_map (fun a => match a with
                     | Generate env => [Date_now env 1]
                     | _ => []
                     end) actions.

(** A clock that never goes back: no reading is earlier than a reading
    taken before it. *)
Fixpoint non_decreasing (readings : list Z) : Prop :=
  match readings with
  | [] => True
  | t :: rest => Forall (fun t' => (t <= t')%Z) rest /\ non_decreasing rest
  end.

(** A stored item whose snapshot, if it has one, fits the capacity. *)
Definition snapshot_bounded (item : option StoredText) : Prop :=
  match item with
  | Some (WellFormed snapshot) => length snapshot <= 15
  | _ => True
  end.

(** An update after which a vault within the capacity is still within it. *)
Definition fits_capacity (u : VaultUpdate) : Prop :=
  match u with
  | Prepend15 _ => True
  | Replace l => length l <= 15
  end.

(** The vault and its stored snapshot are within the capacity. *)
Definition within_capacity (st : Store) : Prop :=
  length (savedResources st) <= 15
  /\ snapshot_bounded (wisian_history st).

(** A stored item that [JSON.parse] rejects. *)
Definition invalid_json (item : option StoredText) : bool :=
  match item with
  | Some EmptyText | Some Malformed => true
  | _ => false
  end.

(** The invocation gets past both guards of [handleGenerate]. *)
Definition accepted (env : Env) (st : Store) : bool :=
  negb (isGenerating st) && guard_passes env st.

(** A failure during issuance or streaming, with the increments received
    before it: the constructor throws, the call rejects, or the stream
    throws after some increments. *)
Inductive Failure (env : Env) (st : Store) : JsError -> list Chunk -> Prop :=
| ConstructorThrows (e : JsError) :
    GoogleGenAI env (API_KEY env) = Some e ->
    Failure env st e []
| CallRejects (e : JsError) :
    GoogleGenAI env (API_KEY env) = None ->
    generateContentStream env (request (selectedTool st) (promptInput st))
      = Rejects e ->
    Failure env st e []
| StreamFaults (e : JsError) (chunks : list Chunk) :
    GoogleGenAI env (API_KEY env) = None ->
    generateContentStream env (request (selectedTool st) (promptInput st))
      = Resolves (mkStream chunks (Faulted e)) ->
    Failure env st e chunks.

(** Natural completion: the stream closes after its increments. *)
Definition Completes (env : Env) (st : Store) (chunks : list Chunk) : Prop :=
  GoogleGenAI env (API_KEY env) = None
  /\ generateContentStream env (request (selectedTool st) (promptInput st))
     = Resolves (mkStream chunks Closed).

(** The entry [handleGenerate] records on natural completion. *)
Definition newResource (env : Env) (st : Store) (chunks : list Chunk)
  : SavedResource :=
  {| res_id := Js.number_toString (Date_now env 0);
     toolName := name (selectedTool st);
     categoryName := activeCategoryName (activeCategory st);
     content := join (map text chunks);
     timestamp := Date_now env 1 |}.

(** The message the [catch] block chooses for an error. *)
Definition failure_message (e : JsError) : string :=
  if message_includes e "API_KEY"
  then AUTHENTICATION_FAILED
  else NETWORK_INTERRUPTION.

(** The re-authentication inside the [catch] block is reached and its
    selection flow throws. *)
Definition reauth_throws (env : Env) (e : JsError) : bool :=
  message_includes e "Requested entity was not found"
  && match aistudio env with
     | Some studio =>
         match openSelectKey studio with
         | Rejects _ => true
         | Resolves _ => false
         end
     | None => false
     end.

(** What [handleGenerate] does to the page before its [try] block. *)
Definition scroll (env : Env) : list Effect :=
  if terminal_view env then [scrollIntoView "terminal-view"] else [].

(** ** Concrete hosts and stores *)

Module Sample.

Definition clock (k : nat) : Z := (1700000000000 + Z.of_nat k)%Z.

(** A host whose service answers every request with [reply]. *)
Definition host (key : option string) (studio : option AiStudio)
  (reply : Settled ResponseStream) : Env :=
  {| API_KEY := key;
     aistudio := studio;
     terminal_view := true;
     GoogleGenAI := fun _ => None;
     generateContentStream := fun _ => reply;
     Date_now := clock |}.

(** A store with access granted and nothing in progress. *)
Definition ready : Store :=
  {| activeCategory := "leadership";
     selectedTool := nth 0 TOOLS_CONFIG default_tool;
     promptInput := "";
     isGenerating := false;
     output := "";
     savedResources := [];
     apiStatus := ApiStatus.online;
     hasAccess := true;
     wisian_history := Some (WellFormed []) |}.

(** The same store without access. *)
Definition locked : Store :=
  {| activeCategory := "leadership";
     selectedTool := nth 0 TOOLS_CONFIG default_tool;
     promptInput := "";
     isGenerating := false;
     output := "";
     savedResources := [];
     apiStatus := ApiStatus.idle;
     hasAccess := false;
     wisian_history := Some (WellFormed []) |}.

(** The same store while an attempt is streaming. *)
Definition streaming : Store :=
  {| activeCategory := "leadership";
     selectedTool := nth 0 TOOLS_CONFIG default_tool;
     promptInput := "";
     isGenerating := true;
     output := "Hello ";
     savedResources := [];
     apiStatus := ApiStatus.online;
     hasAccess := true;
     wisian_history := Some (WellFormed []) |}.

Definition hello_world : ResponseStream :=
  {| increments := [mkChunk "Hello "; mkChunk "World"]; ending := Closed |}.

Definition not_found : JsError :=
  mkError (Some "Requested entity was not found.").


(** A stream that throws after one increment. *)
Definition broken (e : JsError) : ResponseStream :=
  {| increments := [mkChunk "Partial "]; ending := Faulted e |}.

Definition studio_ok : AiStudio :=
  {| hasSelectedApiKey := true; openSelectKey := Resolves tt |}.

Definition studio_dismissed : AiStudio :=
  {| hasSelectedApiKey := true;
     openSelectKey := Rejects (mkError (Some "dialog dismissed")) |}.

(** A host with a key in the environment and a service that streams
    ["Hello "] then ["World"]. *)
Definition serving : Env := host (Some "key") None (Resolves hello_world).

(** A host with neither key nor [window.aistudio]. *)
Definition keyless : Env := host None None (Resolves hello_world).

(** A host on which the stream breaks with the stale-credential error and
    the user dismisses the selection dialog. *)
Definition stale_dismissed : Env :=
  host None (Some studio_dismissed) (Resolves (broken not_found)).

(** The same host with a user who selects a key. *)
Definition stale_reselected : Env :=
  host None (Some studio_ok) (Resolves (broken not_found)).

(** The same fault on a host without [window.aistudio]. *)
Definition stale_unattended : Env :=
  host None None (Resolves (broken not_found)).

Definition entry (k : nat) : SavedResource :=
  {| res_id := Js.number_toString (Z.of_nat k);
     toolName := "Strategic Roadmap";
     categoryName := "Executive";
     content := "";
     timestamp := Z.of_nat k |}.

(** A well-formed snapshot of sixteen entries, newest first. *)
Definition sixteen : list SavedResource := map entry (rev (seq 1 16)).

End Sample.

(** ** The rest of the component *)

(** [filteredTools]: the tools listed under the active category. *)
Definition filteredTools (activeCategory : string) : list ToolConfig :=
  filter (fun t => String.eqb (categoryId t) activeCategory) TOOLS_CONFIG.

Definition with_activeCategory (st : Store) (c : string) : Store :=
  mkStore c (selectedTool st) (promptInput st) (isGenerating st)
    (output st) (savedResources st) (apiStatus st) (hasAccess st)
    (wisian_history st).

Definition with_promptInput (st : Store) (value : string) : Store :=
  mkStore (activeCategory st) (selectedTool st) value (isGenerating st)
    (output st) (savedResources st) (apiStatus st) (hasAccess st)
    (wisian_history st).

(** The click on a category, [setActiveCategory(cat.id)]: when the value
    changes, the component renders again and the effect on
    [activeCategory] runs; when it is the same, React renders nothing. *)
Definition selectCategory (st : Store) (c : string) : Store :=
  if String.eqb c (activeCategory st) then st
  else
    let st' := with_activeCategory st c in
    settle st' (trace (categoryEffect st')).

(** The Auto-Inject button: [setPromptInput(selectedTool.examplePrompt)]. *)
Definition autoInject (st : Store) : Store :=
  with_promptInput st (examplePrompt (selectedTool st)).

(** What the user can do to the page: the actions above, a click on a
    category, the Auto-Inject button. *)
Inductive Event : Type :=
| Act (a : Action)
| SelectCategory (c : string)
| AutoInject.

Definition react (st : Store) (ev : Event) : Store :=
  match ev with
  | Act a => step st a
  | SelectCategory c => selectCategory st c
  | AutoInject => autoInject st
  end.

Definition reacts (st : Store) (events : list Event) : Store :=
  fold_left react events st.

(** The events the rendered page offers: a tool is chosen among
    [filteredTools], a category among [TOOL_CATEGORIES]. *)
Definition offered (st : Store) (ev : Event) : Prop :=
  match ev with
  | Act (SelectTool tool) => In tool (filteredTools (activeCategory st))
  | SelectCategory c => In c (map cat_id TOOL_CATEGORIES)
  | _ => True
  end.

(** A run of offered events from a store. *)
Fixpoint offered_run (st : Store) (events : list Event) : Prop :=
  match events with
  | [] => True
  | ev :: rest => offered st ev /\ offered_run (react st ev) rest
  end.


(** ** The output terminal *)

Module Terminal.

(** [s.split('\n')] *)
Fixpoint split_lines (s : string) : list string :=
  match s with
  | EmptyString => [EmptyString]
  | String c rest =>
      if Ascii.eqb c "010"%char then EmptyString :: split_lines rest
      else
        match split_lines rest with
        | [] => [String c EmptyString]
        | line :: lines => String c line :: lines
        end
  end.

(** [s.slice(n)] for [n] within the string, as [replace] uses it. *)
Fixpoint drop (n : nat) (s : string) : string :=
  match n, s with
  | O, _ => s
  | S n', EmptyString => EmptyString
  | S n', String _ rest => drop n' rest
  end.

(** [s.replace(pattern, '')] for a string pattern: the first occurrence
    is removed. *)
Fixpoint remove_first (pattern s : string) : string :=
  if String.prefix pattern s then drop (String.length pattern) s
  else
    match s with
    | EmptyString => EmptyString
    | String c rest => String c (remove_first pattern rest)
    end.

(** [s.replace(/\*\*/g, '')]: every pair of stars is removed, from left
    to right. *)
Fixpoint remove_stars (s : string) : string :=
  match s with
  | EmptyString => EmptyString
  | String c rest =>
      match rest with
      | String c' rest' =>
          if Ascii.eqb c "*"%char && Ascii.eqb c' "*"%char
          then remove_stars rest'
          else String c (remove_stars rest)
      | EmptyString => s
      end
  end.

(** [s.replace(/^[-*]/, '')] *)
Definition remove_marker (s : string) : string :=
  match s with
  | String c rest =>
      if Ascii.eqb c "-"%char || Ascii.eqb c "*"%char then rest else s
  | EmptyString => s
  end.

(** The elements the terminal renders a line as. *)
Inductive Block : Type :=
| h3 (title : string)
| p_bold (label : string)
| li (item : string)
| p (line : string)
| div_gap.

(** The body of [output.split('\n').map((line, i) => ...)]. *)
Definition renderLine (line : string) : Block :=
  if String.prefix "###" line then
    h3 (Js.trim (remove_first "###" line))
  else if String.prefix "**" line then
    p_bold (Js.trim (remove_stars line))
  else if String.prefix "-" (Js.trim line) || String.prefix "*" (Js.trim line) then
    li (Js.trim (remove_marker line))
  else if Js.truthy (Js.trim line) then p line
  else div_gap.

Definition markdown_content (output : string) : list Block :=
  map renderLine (split_lines output).

(** What the terminal shows besides the rendered lines. *)
Definition showsExport (st : Store) : bool :=
  Js.truthy (output st) && negb (isGenerating st).

Definition showsSystemReady (st : Store) : bool :=
  negb (Js.truthy (output st)) && negb (isGenerating st).

Definition showsDecrypting (st : Store) : bool :=
  isGenerating st && negb (Js.truthy (output st)).

(** The number of line feeds of a string. *)
Fixpoint count_LF (s : string) : nat :=
  match s with
  | EmptyString => 0
  | String c rest => (if Ascii.eqb c "010"%char then 1 else 0) + count_LF rest
  end.

End Terminal.

(** ** Copy, export and share *)

Module Sharing.

(** [s.slice(0, n)] *)
Fixpoint slice0 (n : nat) (s : string) : string :=
  match n, s with
  | O, _ => EmptyString
  | S n', EmptyString => EmptyString
  | S n', String c rest => String c (slice0 n' rest)
  end.

(** The argument of [navigator.share]. *)
Record ShareData : Type := mkShareData
  { title : string;
    share_text : string;
    url : string }.

(** The page around these handlers: [navigator.share], when the browser
    has it, with how its promise settles; [window.location.href]. *)
Record Browser : Type := mkBrowser
  { navigator_share : option (ShareData -> Settled unit);
    location_href : string }.

Inductive ExportEffect : Type :=
| clipboard_writeText (s : string)
| setShowCopySuccess (b : bool)
| setTimeout_hideCopySuccess (ms : nat)
| download (fileName : string) (mimeType : string) (body : string)
| call_share (data : ShareData)
| console_log (label : string).

Definition copyToClipboard (st : Store) : list ExportEffect :=
  [clipboard_writeText (output st);
   setShowCopySuccess true;
   setTimeout_hideCopySuccess 2000].

Definition downloadResource (env : Env) (st : Store) : list ExportEffect :=
  if negb (Js.truthy (output st)) then []
  else
    [download
       ("wisian-corp-" ++ id (selectedTool st) ++ "-"
          ++ Js.number_toString (Date_now env 0) ++ ".md")%string
       "text/markdown"
       (output st)].

(** The object [shareResource] hands to [navigator.share]. *)
Definition shareData (browser : Browser) (st : Store) : ShareData :=
  {| title := ("Wisian Corporation: " ++ name (selectedTool st))%string;
     share_text := (slice0 100 (output st) ++ "...")%string;
     url := location_href browser |}.

(** [shareResource]: its effects, and whether its promise rejects. *)
Definition shareResource (browser : Browser) (st : Store)
  : list ExportEffect * (JsError + unit) :=
  match navigator_share browser with
  | Some share =>
      let data := shareData browser st in
      match share data with
      | Resolves _ => ([call_share data], inr tt)
      | Rejects err => ([call_share data; console_log "Share failed"], inr tt)
      end
  | None => (copyToClipboard st, inr tt)
  end.

End Sharing.

(** The tools given to [setSelectedTool], in order. *)
Definition selections (tr : list Effect) : list ToolConfig :=
  flat_map (fun e => match e with setSelectedTool t => [t] | _ => [] end) tr.

(** The events after which the vault may differ: a generation, a
    confirmed purge, a reload. *)
Definition may_change_vault (ev : Event) : bool :=
  match ev with
  | Act (Generate _) | Act (ClearHistory true) | Act (Reload _) => true
  | _ => false
  end.


(** The stored snapshot is the vault. *)
Definition snapshot_in_sync (st : Store) : Prop :=
  wisian_history st = Some (WellFormed (savedResources st)).

(** The selected tool is one of those listed under the active category. *)
Definition tool_in_category (st : Store) : Prop :=
  In (selectedTool st) (filteredTools (activeCategory st))
  /\ In (activeCategory st) (map cat_id TOOL_CATEGORIES).

(** ** More concrete hosts, stores and events *)

Module Scenario.


(** A host with [window.aistudio], no key selected there, and a user who
    selects one when asked. *)
Definition studio_unselected : AiStudio :=
  {| hasSelectedApiKey := false; openSelectKey := Resolves tt |}.

Definition studio_host : Env :=
  Sample.host None (Some studio_unselected) (Resolves Sample.hello_world).

(** The same host with a user who dismisses the dialog. *)
Definition studio_unselected_dismissed : AiStudio :=
  {| hasSelectedApiKey := false;
     openSelectKey := Rejects (mkError (Some "dialog dismissed")) |}.

Definition studio_host_dismissed : Env :=
  Sample.host None (Some studio_unselected_dismissed)
    (Resolves Sample.hello_world).


(** A session: a category is chosen, a tool of it, the example is
    injected, a generation completes, the page is loaded again. *)
Definition session : list Event :=
  [SelectCategory "teacher";
   Act (SelectTool (nth 3 TOOLS_CONFIG default_tool));
   AutoInject;
   Act (Generate Sample.serving);
   Act (Reload Sample.serving)].

End Scenario.

(** ** Facts about the string primitives *)

Module JsFacts.
Local Open Scope string_scope.

Lemma prefix_app (p s : string) : String.prefix p (p ++ s) = true.
Proof.
  induction p as [|c p IH]; simpl.
  - now destruct s.
  - destruct (ascii_dec c c) as [_|ne]; [exact IH | now elim ne].
Qed.

Lemma prefix_split (p s : string) :
  String.prefix p s = true -> exists q, s = p ++ q.
Proof.
  revert s; induction p as [|c p IH]; intros s H.
  - now exists s.
  - destruct s as [|d s]; simpl in H; [discriminate|].
    destruct (ascii_dec c d) as [->|_]; [|discriminate].
    destruct (IH _ H) as [q ->]. now exists q.
Qed.

Lemma includes_unfold (needle hay : string) :
  Js.includes needle hay =
  String.prefix needle hay
  || match hay with
     | EmptyString => false
     | String _ rest => Js.includes needle rest
     end.
Proof.
  destruct hay as [|c hay]; simpl.
  - now destruct needle.
  - now destruct (String.prefix needle (String c hay)).
Qed.

(** [includes] finds exactly the substrings. *)
Lemma includes_spec (needle hay : string) :
  Js.includes needle hay = true <->
  exists before after, hay = before ++ needle ++ after.
Proof.
  split.
  - induction hay as [|c hay IH]; rewrite includes_unfold;
      intros H; apply orb_true_iff in H as [P|H].
    + destruct (prefix_split _ _ P) as [q Hq]. now exists "", q.
    + discriminate H.
    + destruct (prefix_split _ _ P) as [q Hq]. now exists "", q.
    + destruct (IH H) as (b & a & ->). now exists (String c b), a.
  - intros (before & after & ->).
    induction before as [|c b IH]; rewrite includes_unfold.
    + simpl (""  ++ _). now rewrite prefix_app.
    + apply orb_true_iff. right. exact IH.
Qed.

Lemma trimEnd_keep (c : ascii) (s : string) :
  Js.is_space c = false ->
  Js.trimEnd (String c s) = String c (Js.trimEnd s).
Proof.
  intros H. simpl. rewrite H. now destruct (Js.trimEnd s).
Qed.

Lemma trimEnd_app (a b : string) :
  Js.trimEnd b <> "" -> Js.trimEnd (a ++ b) = a ++ Js.trimEnd b.
Proof.
  intros H. induction a as [|c a IH]; simpl; [reflexivity|].
  rewrite IH. destruct (a ++ Js.trimEnd b) eqn:E; [|reflexivity].
  destruct a; simpl in E; [now elim H | discriminate].
Qed.

Lemma append_assoc (a b c : string) : (a ++ b) ++ c = a ++ b ++ c.
Proof. induction a as [|x a IH]; simpl; [reflexivity | now rewrite IH]. Qed.

Lemma append_nil_r (a : string) : a ++ "" = a.
Proof. induction a as [|x a IH]; simpl; [reflexivity | now rewrite IH]. Qed.

End JsFacts.

(** ** The prompt composer *)

Module Composer.
Local Open Scope string_scope.

Lemma trimEnd_frame (a n b c k t : string) :
  Js.trimEnd t <> "" ->
  Js.trimEnd (a ++ n ++ b ++ c ++ k ++ t)
  = (a ++ n ++ b) ++ c ++ k ++ Js.trimEnd t.
Proof.
  intros H. rewrite <- !JsFacts.append_assoc.
  now rewrite JsFacts.trimEnd_app.
Qed.

(** The shape of every user instruction: the directive, what stands for
    the context, and the core task. *)
Lemma userPrompt_shape (tool : ToolConfig) (promptInput : string) :
  userPrompt tool promptInput =
  directive tool
    ++ Js.or_else promptInput "Standard operating procedure."
    ++ core_task tool.
Proof.
  unfold userPrompt, Js.trim.
  set (ctx := Js.or_else promptInput "Standard operating procedure.").
  set (tail := " " ++ basePrompt tool ++ Js.LF ++ "      ").
  assert (K : Js.trimEnd (String "*" tail) = String "*" (Js.trimEnd tail))
    by now apply JsFacts.trimEnd_keep.
  transitivity
    (Js.trimEnd
       ("**Directive:** Execute the following task using the "
          ++ name tool ++ (" module." ++ Js.LF ++ "        **Context:** ")
          ++ ctx ++ (Js.LF ++ "        **Core Task:*") ++ String "*" tail));
    [reflexivity|].
  rewrite trimEnd_frame by (rewrite K; discriminate).
  rewrite K. reflexivity.
Qed.

(** The resolved model follows the tier, for any tool. *)
Lemma modelName_tier (tool : ToolConfig) :
  (modelName tool = "gemini-3-pro-preview" <-> modelTier tool = pro)
  /\ (modelName tool = "gemini-3-flash-preview" <-> modelTier tool = flash).
Proof.
  unfold modelName; destruct (modelTier tool);
    repeat split; intros H; try reflexivity; discriminate H.
Qed.

(** No base prompt of the catalog loses anything to [trim]. *)
Lemma catalog_core_task :
  Forall (fun tool =>
            core_task tool
            = Js.LF ++ "        **Core Task:** " ++ basePrompt tool)
    TOOLS_CONFIG.
Proof. repeat constructor. Qed.

(** The instruction sent for the first tool of the catalog when the
    context is empty, and when it is one space. *)
Example userPrompt_empty_context :
  userPrompt (nth 0 TOOLS_CONFIG default_tool) "" =
  "**Directive:** Execute the following task using the Strategic Roadmap module."
    ++ Js.LF ++ "        **Context:** Standard operating procedure."
    ++ Js.LF ++ "        **Core Task:** Draft a high-level strategic roadmap or executive memo. Treat the Principal as a CEO. Use corporate management frameworks (SWOT, OKRs) applied to education.".
Proof. reflexivity. Qed.

Example userPrompt_space_context :
  userPrompt (nth 0 TOOLS_CONFIG default_tool) " " =
  "**Directive:** Execute the following task using the Strategic Roadmap module."
    ++ Js.LF ++ "        **Context:**  "
    ++ Js.LF ++ "        **Core Task:** Draft a high-level strategic roadmap or executive memo. Treat the Principal as a CEO. Use corporate management frameworks (SWOT, OKRs) applied to education.".
Proof. reflexivity. Qed.

(** C5 as the claim states it fails: a context of one space is white
    space only, and the default string is not substituted for it. *)
Lemma C5_whitespace_context_not_defaulted :
  ~ (forall tool promptInput,
        Js.all_space promptInput = true ->
        userPrompt tool promptInput =
        directive tool ++ "Standard operating procedure." ++ core_task tool).
Proof.
  intros H.
  specialize (H (nth 0 TOOLS_CONFIG default_tool) " " eq_refl).
  vm_compute in H. discriminate H.
Qed.

(** C5 (amended): for every tool, the user instruction built for the empty
    context carries the default string ["Standard operating procedure."]
    between the directive naming the tool and the tool's base prompt, and
    the one built for any non-empty context, white space included,
    carries that context verbatim in the same place. *)
Theorem C5_context_or_default (tool : ToolConfig) :
  userPrompt tool "" =
    directive tool ++ "Standard operating procedure." ++ core_task tool
  /\ (forall c rest,
        userPrompt tool (String c rest) =
        directive tool ++ String c rest ++ core_task tool).
Proof.
  split; [|intros c rest]; apply userPrompt_shape.
Qed.

(** C6: the catalog has seven tools, and for each of them the model named
    in the request is ["gemini-3-pro-preview"] exactly when the tool's tier
    is [pro] and ["gemini-3-flash-preview"] exactly when it is [flash]. *)
Theorem C6_model_follows_tier :
  length TOOLS_CONFIG = 7
  /\ Forall (fun tool =>
               forall promptInput,
                 (model (request tool promptInput) = "gemini-3-pro-preview"
                  <-> modelTier tool = pro)
                 /\ (model (request tool promptInput) = "gemini-3-flash-preview"
                     <-> modelTier tool = flash))
       TOOLS_CONFIG.
Proof.
  split; [reflexivity|].
  apply Forall_forall. intros tool _ promptInput. apply modelName_tier.
Qed.

End Composer.

(** ** Facts about traces and stores *)

Module TraceFacts.

Lemma published_app (a b : list Effect) :
  published (a ++ b) = published a ++ published b.
Proof. apply flat_map_app. Qed.

Lemma vault_updates_app (a b : list Effect) :
  vault_updates (a ++ b) = vault_updates a ++ vault_updates b.
Proof. apply flat_map_app. Qed.

Lemma gate_trace_app (a b : list Effect) :
  gate_trace (a ++ b) = gate_trace a ++ gate_trace b.
Proof. apply flat_map_app. Qed.

Lemma requests_app (a b : list Effect) :
  requests (a ++ b) = requests a ++ requests b.
Proof. apply flat_map_app. Qed.

Lemma published_outputs (l : list string) : published (map setOutput l) = l.
Proof. induction l as [|s l IH]; simpl; [reflexivity | now rewrite IH]. Qed.

Lemma vault_updates_outputs (l : list string) :
  vault_updates (map setOutput l) = [].
Proof. induction l as [|s l IH]; simpl; [reflexivity | exact IH]. Qed.

Lemma gate_trace_outputs (l : list string) : gate_trace (map setOutput l) = [].
Proof. induction l as [|s l IH]; simpl; [reflexivity | exact IH]. Qed.

Lemma requests_outputs (l : list string) : requests (map setOutput l) = [].
Proof. induction l as [|s l IH]; simpl; [reflexivity | exact IH]. Qed.

Lemma last_cons_default (A : Type) (x : A) (l : list A) (d d' : A) :
  last (x :: l) d = last (x :: l) d'.
Proof.
  revert x; induction l as [|y l IH]; intros x; [reflexivity|].
  change (last (y :: l) d = last (y :: l) d'). apply IH.
Qed.

Lemma run_app (st : Store) (a b : list Effect) :
  run st (a ++ b) = run (run st a) b.
Proof. apply fold_left_app. Qed.

(** The output after a trace is the last one published. *)
Lemma output_run (tr : list Effect) (st : Store) :
  output (run st tr) = last (published tr) (output st).
Proof.
  revert st; induction tr as [|e tr IH]; intros st; [reflexivity|].
  change (run st (e :: tr)) with (run (apply st e) tr). rewrite IH.
  destruct e; try reflexivity.
  simpl published. simpl output.
  destruct (published tr) as [|s' l]; [reflexivity|].
  change (last (s' :: l) s = last (s' :: l) (output st)).
  apply last_cons_default.
Qed.

(** The vault after a trace is the vault before it, updated in order. *)
Lemma savedResources_run (tr : list Effect) (st : Store) :
  savedResources (run st tr) =
  fold_left (fun v u => vault_update u v) (vault_updates tr) (savedResources st).
Proof.
  revert st; induction tr as [|e tr IH]; intros st; [reflexivity|].
  change (run st (e :: tr)) with (run (apply st e) tr). rewrite IH.
  destruct e; reflexivity.
Qed.

(** The gate after a trace is the last status it was given. *)
Lemma apiStatus_run (tr : list Effect) (st : Store) :
  apiStatus (run st tr) = last (gate_trace tr) (apiStatus st).
Proof.
  revert st; induction tr as [|e tr IH]; intros st; [reflexivity|].
  change (run st (e :: tr)) with (run (apply st e) tr). rewrite IH.
  destruct e; try reflexivity.
  simpl gate_trace. simpl apiStatus.
  destruct (gate_trace tr) as [|s' l]; [reflexivity|].
  change (last (s' :: l) s = last (s' :: l) (apiStatus st)).
  apply last_cons_default.
Qed.

(** Access after a trace is the last value it was given. *)
Lemma hasAccess_run (tr : list Effect) (st : Store) :
  hasAccess (run st tr) = last (access_trace tr) (hasAccess st).
Proof.
  revert st; induction tr as [|e tr IH]; intros st; [reflexivity|].
  change (run st (e :: tr)) with (run (apply st e) tr). rewrite IH.
  destruct e; try reflexivity.
  simpl access_trace. simpl hasAccess.
  destruct (access_trace tr) as [|s' l]; [reflexivity|].
  change (last (s' :: l) b = last (s' :: l) (hasAccess st)).
  apply last_cons_default.
Qed.

(** The indicator after a trace is the last value it was given. *)
Lemma isGenerating_run (tr : list Effect) (st : Store) :
  isGenerating (run st tr) = last (progress_trace tr) (isGenerating st).
Proof.
  revert st; induction tr as [|e tr IH]; intros st; [reflexivity|].
  change (run st (e :: tr)) with (run (apply st e) tr). rewrite IH.
  destruct e; try reflexivity.
  simpl progress_trace. simpl isGenerating.
  destruct (progress_trace tr) as [|s' l]; [reflexivity|].
  change (last (s' :: l) b = last (s' :: l) (isGenerating st)).
  apply last_cons_default.
Qed.

(** Only [removeItem] touches the stored item while a trace runs. *)
Lemma wisian_history_run (tr : list Effect) (st : Store) :
  removals tr = [] -> wisian_history (run st tr) = wisian_history st.
Proof.
  revert st; induction tr as [|e tr IH]; intros st H; [reflexivity|].
  change (run st (e :: tr)) with (run (apply st e) tr).
  destruct e; try (rewrite (IH _ H); reflexivity).
  discriminate H.
Qed.

Lemma removals_app (a b : list Effect) :
  removals (a ++ b) = removals a ++ removals b.
Proof. apply flat_map_app. Qed.

Lemma removals_outputs (l : list string) : removals (map setOutput l) = [].
Proof. induction l as [|s l IH]; simpl; [reflexivity | exact IH]. Qed.

Lemma access_trace_app (a b : list Effect) :
  access_trace (a ++ b) = access_trace a ++ access_trace b.
Proof. apply flat_map_app. Qed.

Lemma access_trace_outputs (l : list string) :
  access_trace (map setOutput l) = [].
Proof. induction l as [|s l IH]; simpl; [reflexivity | exact IH]. Qed.

Lemma progress_trace_app (a b : list Effect) :
  progress_trace (a ++ b) = progress_trace a ++ progress_trace b.
Proof. apply flat_map_app. Qed.

Lemma progress_trace_outputs (l : list string) :
  progress_trace (map setOutput l) = [].
Proof. induction l as [|s l IH]; simpl; [reflexivity | exact IH]. Qed.

(** A trace that does not update the vault leaves it and its snapshot. *)
Lemma settle_frame (st : Store) (tr : list Effect) :
  vault_updates tr = [] -> removals tr = [] ->
  settle st tr = run st tr
  /\ savedResources (settle st tr) = savedResources st
  /\ wisian_history (settle st tr) = wisian_history st.
Proof.
  intros V R. unfold settle. rewrite V.
  rewrite savedResources_run, V, (wisian_history_run _ _ R).
  repeat split.
Qed.

(** The persisting effect changes the stored item only. *)
Lemma settle_output (st : Store) (tr : list Effect) :
  output (settle st tr) = output (run st tr).
Proof. unfold settle. now destruct (vault_updates tr). Qed.

Lemma settle_apiStatus (st : Store) (tr : list Effect) :
  apiStatus (settle st tr) = apiStatus (run st tr).
Proof. unfold settle. now destruct (vault_updates tr). Qed.

Lemma settle_hasAccess (st : Store) (tr : list Effect) :
  hasAccess (settle st tr) = hasAccess (run st tr).
Proof. unfold settle. now destruct (vault_updates tr). Qed.

Lemma settle_isGenerating (st : Store) (tr : list Effect) :
  isGenerating (settle st tr) = isGenerating (run st tr).
Proof. unfold settle. now destruct (vault_updates tr). Qed.

Lemma settle_savedResources (st : Store) (tr : list Effect) :
  savedResources (settle st tr) = savedResources (run st tr).
Proof. unfold settle. now destruct (vault_updates tr). Qed.

End TraceFacts.

(** ** Facts about the session controller *)

Module SessionFacts.
Import TraceFacts.

Lemma prefix_texts_cons (c : Chunk) (rest : list Chunk) :
  prefix_texts (c :: rest) =
  text c :: map (String.append (text c)) (prefix_texts rest).
Proof.
  unfold prefix_texts. simpl length.
  change (seq 1 (S (length rest))) with (1 :: seq 2 (length rest)).
  rewrite <- seq_shift, !map_map. simpl. f_equal.
  - apply JsFacts.append_nil_r.
  - now rewrite map_map.
Qed.

(** The loop publishes the accumulator after each increment and ends with
    all the texts appended, or with the fault of the stream. *)
Lemma for_await_spec (chunks : list Chunk) (fin : StreamEnd) (acc : string) :
  for_await chunks fin acc =
  (map setOutput (map (String.append acc) (prefix_texts chunks)),
   match fin with
   | Closed => inr (acc ++ join (map text chunks))%string
   | Faulted e => inl e
   end).
Proof.
  revert acc; induction chunks as [|c rest IH]; intros acc.
  - simpl. rewrite JsFacts.append_nil_r. now destruct fin.
  - simpl for_await. rewrite IH, prefix_texts_cons.
    unfold bind, emit. simpl. rewrite !map_map.
    f_equal.
    + f_equal. apply map_ext. intros s.
      now rewrite JsFacts.append_assoc.
    + destruct fin; [|reflexivity].
      now rewrite JsFacts.append_assoc.
Qed.

Lemma accepted_guards (env : Env) (st : Store) :
  accepted env st = true ->
  isGenerating st = false
  /\ negb (hasAccess st) && negb (Js.truthy_opt (API_KEY env)) = false.
Proof.
  unfold accepted, guard_passes. intros H.
  apply andb_true_iff in H as [G P].
  split; [now destruct (isGenerating st)|].
  now rewrite <- negb_orb, P.
Qed.

(** An accepted invocation: the indicator is set, the output is reset,
    the [try]/[catch] runs, and the indicator is cleared. *)
Lemma handleGenerate_accepted (env : Env) (st : Store) :
  accepted env st = true ->
  handleGenerate env st =
  ([setIsGenerating true; setOutput ""] ++ scroll env
     ++ trace (try_catch (generate_body env st) (generate_catch env))
     ++ [setIsGenerating false],
   outcome (try_catch (generate_body env st) (generate_catch env))).
Proof.
  intros H. destruct (accepted_guards _ _ H) as [G D].
  unfold handleGenerate, scroll. rewrite G, D.
  destruct (try_catch _ _) as [t r].
  unfold bind, emit, finally, ret, trace, outcome.
  destruct (terminal_view env); reflexivity.
Qed.

Lemma bind_emit (A : Type) (e : Effect) (k : unit -> M A) :
  bind (emit e) k = (e :: trace (k tt), outcome (k tt)).
Proof. unfold bind, emit, trace, outcome. now destruct (k tt). Qed.

Lemma bind_ok (A B : Type) (t : list Effect) (a : A) (k : A -> M B) :
  bind (t, inr a) k = (t ++ trace (k a), outcome (k a)).
Proof. unfold bind, trace, outcome. now destruct (k a). Qed.

Lemma bind_thrown (A B : Type) (t : list Effect) (e : JsError) (k : A -> M B) :
  bind (t, inl e) k = (t, inl e).
Proof. reflexivity. Qed.

Lemma map_append_empty (l : list string) : map (String.append "") l = l.
Proof.
  induction l as [|s l IH]; [reflexivity|].
  change (s :: map (String.append "") l = s :: l). now rewrite IH.
Qed.

(** The [try] block once the stream is obtained. *)
Lemma body_stream (env : Env) (st : Store) (chunks : list Chunk)
  (fin : StreamEnd) :
  GoogleGenAI env (API_KEY env) = None ->
  generateContentStream env (request (selectedTool st) (promptInput st))
    = Resolves (mkStream chunks fin) ->
  generate_body env st =
  ([new_GoogleGenAI (API_KEY env);
    call_generateContentStream (request (selectedTool st) (promptInput st))]
     ++ map setOutput (prefix_texts chunks)
     ++ match fin with
        | Closed => [setSavedResources (Prepend15 (newResource env st chunks))]
        | Faulted _ => []
        end,
   match fin with
   | Closed => inr tt
   | Faulted e => inl e
   end).
Proof.
  intros C S. unfold generate_body. rewrite C, S.
  rewrite !bind_emit. unfold await, ret. rewrite bind_ok.
  simpl increments. simpl ending. rewrite for_await_spec, map_append_empty.
  destruct fin as [|e].
  - rewrite bind_ok. reflexivity.
  - rewrite bind_thrown. unfold trace, outcome. simpl.
    now rewrite app_nil_r.
Qed.

(** The [try] block on natural completion. *)
Lemma body_completes (env : Env) (st : Store) (chunks : list Chunk) :
  Completes env st chunks ->
  generate_body env st =
  ([new_GoogleGenAI (API_KEY env);
    call_generateContentStream (request (selectedTool st) (promptInput st))]
     ++ map setOutput (prefix_texts chunks)
     ++ [setSavedResources (Prepend15 (newResource env st chunks))],
   inr tt).
Proof. intros [C S]. now rewrite (body_stream _ _ C S). Qed.

(** The [try] block on a failure: the constructor is called, at most one
    request is sent, what was received is published, and the error is
    thrown. *)
Lemma body_fails (env : Env) (st : Store) (e : JsError) (chunks : list Chunk) :
  Failure env st e chunks ->
  exists issued,
    (issued = []
     \/ issued = [call_generateContentStream
                    (request (selectedTool st) (promptInput st))])
    /\ generate_body env st =
       (new_GoogleGenAI (API_KEY env) :: issued
          ++ map setOutput (prefix_texts chunks),
        inl e).
Proof.
  intros F.
  destruct F as [e C | e C S | e chunks C S].
  - exists []. split; [now left|].
    unfold generate_body. now rewrite C.
  - eexists. split; [now right|].
    unfold generate_body. now rewrite C, S.
  - eexists. split; [now right|].
    rewrite (body_stream _ _ C S). now rewrite app_nil_r.
Qed.

(** Every run of the [try] block is a failure or a natural completion. *)
Lemma body_cases (env : Env) (st : Store) :
  (exists e chunks, Failure env st e chunks)
  \/ (exists chunks, Completes env st chunks).
Proof.
  destruct (GoogleGenAI env (API_KEY env)) as [e|] eqn:C.
  - left. exists e, []. now apply ConstructorThrows.
  - destruct (generateContentStream env
                (request (selectedTool st) (promptInput st)))
      as [[chunks [|e]]|e] eqn:S.
    + right. now exists chunks.
    + left. exists e, chunks. now apply StreamFaults.
    + left. exists e, []. now apply CallRejects.
Qed.

(** The [catch] block, case by case. *)
Lemma catch_spec (env : Env) (e : JsError) :
  generate_catch env e =
  if message_includes e "Requested entity was not found" then
    match aistudio env with
    | Some studio =>
        match openSelectKey studio with
        | Resolves _ =>
            ([console_error "Generation error:";
              setHasAccess false; setApiStatus ApiStatus.error;
              call_openSelectKey;
              setHasAccess true; setApiStatus ApiStatus.online;
              setOutput (failure_message e)], inr tt)
        | Rejects e' =>
            ([console_error "Generation error:";
              setHasAccess false; setApiStatus ApiStatus.error;
              call_openSelectKey], inl e')
        end
    | None =>
        ([console_error "Generation error:";
          setHasAccess false; setApiStatus ApiStatus.error;
          setOutput (failure_message e)], inr tt)
    end
  else
    ([console_error "Generation error:"; setOutput (failure_message e)],
     inr tt).
Proof.
  unfold generate_catch, failure_message.
  destruct (message_includes e "Requested entity was not found");
    [destruct (aistudio env) as [studio|];
     [destruct (openSelectKey studio) as [[]|e']|]|];
    reflexivity.
Qed.

Lemma try_catch_thrown (A : Type) (t : list Effect) (e : JsError)
  (handler : JsError -> M A) :
  try_catch (t, inl e) handler
  = (t ++ trace (handler e), outcome (handler e)).
Proof. unfold try_catch, trace, outcome. now destruct (handler e). Qed.

(** The whole trace of an accepted invocation that completes. *)
Lemma completed_trace (env : Env) (st : Store) (chunks : list Chunk) :
  accepted env st = true ->
  Completes env st chunks ->
  handleGenerate env st =
  ([setIsGenerating true; setOutput ""] ++ scroll env
     ++ ([new_GoogleGenAI (API_KEY env);
          call_generateContentStream
            (request (selectedTool st) (promptInput st))]
           ++ map setOutput (prefix_texts chunks)
           ++ [setSavedResources (Prepend15 (newResource env st chunks))])
     ++ [setIsGenerating false],
   inr tt).
Proof.
  intros A C. rewrite (handleGenerate_accepted _ _ A).
  now rewrite (body_completes C).
Qed.

(** The whole trace of an accepted invocation that fails. *)
Lemma failed_trace (env : Env) (st : Store) (e : JsError)
  (chunks : list Chunk) :
  accepted env st = true ->
  Failure env st e chunks ->
  exists issued,
    (issued = []
     \/ issued = [call_generateContentStream
                    (request (selectedTool st) (promptInput st))])
    /\ handleGenerate env st =
       ([setIsGenerating true; setOutput ""] ++ scroll env
          ++ ((new_GoogleGenAI (API_KEY env) :: issued
                 ++ map setOutput (prefix_texts chunks))
                ++ trace (generate_catch env e))
          ++ [setIsGenerating false],
        outcome (generate_catch env e)).
Proof.
  intros A F. destruct (body_fails F) as (issued & I & B).
  exists issued. split; [exact I|].
  rewrite (handleGenerate_accepted _ _ A), B.
  now rewrite try_catch_thrown.
Qed.

(** Scrolling is none of the observations. *)
Lemma scroll_silent (env : Env) :
  published (scroll env) = [] /\ vault_updates (scroll env) = []
  /\ gate_trace (scroll env) = [] /\ removals (scroll env) = []
  /\ access_trace (scroll env) = [] /\ progress_trace (scroll env) = []
  /\ requests (scroll env) = [].
Proof. unfold scroll. destruct (terminal_view env); repeat split. Qed.

(** The guard fails: the message is published and nothing else happens. *)
Lemma denied_trace (env : Env) (st : Store) :
  isGenerating st = false ->
  guard_passes env st = false ->
  handleGenerate env st = ([setOutput ACCESS_DENIED], inr tt).
Proof.
  unfold guard_passes, handleGenerate. intros G D. rewrite G.
  rewrite <- negb_orb, D. reflexivity.
Qed.

Lemma last_cons (A : Type) (x d : A) (l : list A) :
  last (x :: l) d = last l x.
Proof.
  revert x; induction l as [|y l IH]; intros x; [reflexivity|].
  change (last (y :: l) d = last (y :: l) x). apply last_cons_default.
Qed.

(** The last prefix published is the whole text. *)
Lemma last_prefix_texts (chunks : list Chunk) :
  last (prefix_texts chunks) "" = join (map text chunks).
Proof.
  unfold prefix_texts. destruct chunks as [|c rest]; [reflexivity|].
  simpl length. rewrite seq_S, map_app.
  change (map ?f [?k]) with [f k]. rewrite last_last.
  change (1 + length rest) with (length (c :: rest)).
  now rewrite firstn_all.
Qed.

Lemma message_includes_intro (e : JsError) (needle before after : string) :
  message e = Some (before ++ needle ++ after)%string ->
  message_includes e needle = true.
Proof.
  intros H. unfold message_includes. rewrite H.
  apply JsFacts.includes_spec. now exists before, after.
Qed.

Ltac project env :=
  let P := fresh in
  destruct (scroll_silent env) as (?P1 & ?P2 & ?P3 & ?P4 & ?P5 & ?P6 & ?P7);
  repeat rewrite ?published_app, ?vault_updates_app, ?gate_trace_app,
    ?removals_app, ?access_trace_app, ?progress_trace_app, ?requests_app;
  repeat rewrite ?published_outputs, ?vault_updates_outputs,
    ?gate_trace_outputs, ?removals_outputs, ?access_trace_outputs,
    ?progress_trace_outputs, ?requests_outputs;
  repeat match goal with
         | H : _ (scroll env) = [] |- _ => rewrite ?H; clear H
         end.

(** A failed attempt records nothing and removes nothing. *)
Lemma failed_no_record (env : Env) (st : Store) (e : JsError)
  (chunks : list Chunk) :
  accepted env st = true ->
  Failure env st e chunks ->
  vault_updates (trace (handleGenerate env st)) = []
  /\ removals (trace (handleGenerate env st)) = [].
Proof.
  intros A F. destruct (failed_trace A F) as (issued & I & ->).
  unfold trace, fst. rewrite catch_spec.
  change (new_GoogleGenAI (API_KEY env) :: issued
            ++ map setOutput (prefix_texts chunks))
    with ([new_GoogleGenAI (API_KEY env)] ++ issued
            ++ map setOutput (prefix_texts chunks)).
  project env.
  destruct I as [-> | ->];
    (destruct (message_includes e "Requested entity was not found");
     [destruct (aistudio env) as [studio|];
      [destruct (openSelectKey studio) as [[]|e']|]|]);
    split; reflexivity.
Qed.

(** What a failed attempt publishes: the reset, what was received, and
    the message chosen by the [catch] block when that block runs to its
    end. *)
Lemma failed_published (env : Env) (st : Store) (e : JsError)
  (chunks : list Chunk) :
  accepted env st = true ->
  Failure env st e chunks ->
  published (trace (handleGenerate env st)) =
  "" :: prefix_texts chunks
     ++ (if reauth_throws env e then [] else [failure_message e]).
Proof.
  intros A F.
  destruct (failed_trace A F) as (issued & I & ->).
  unfold trace, fst. rewrite catch_spec. unfold reauth_throws.
  change (new_GoogleGenAI (API_KEY env) :: issued
            ++ map setOutput (prefix_texts chunks))
    with ([new_GoogleGenAI (API_KEY env)] ++ issued
            ++ map setOutput (prefix_texts chunks)).
  project env.
  assert (Q : published issued = []) by (destruct I as [-> | ->]; reflexivity).
  rewrite Q. clear Q I.
  destruct (message_includes e "Requested entity was not found");
    [destruct (aistudio env) as [studio|];
     [destruct (openSelectKey studio) as [[]|e']|]|];
    cbn [published flat_map app fst andb];
    rewrite ?app_nil_r; reflexivity.
Qed.

(** What a failed attempt leaves as the output: that message, or else the
    text accumulated before the fault. *)
Lemma failed_output (env : Env) (st : Store) (e : JsError)
  (chunks : list Chunk) :
  accepted env st = true ->
  Failure env st e chunks ->
  output (settle st (trace (handleGenerate env st))) =
  if reauth_throws env e then join (map text chunks) else failure_message e.
Proof.
  intros A F. rewrite settle_output, output_run, (failed_published A F).
  rewrite last_cons. destruct (reauth_throws env e).
  - rewrite app_nil_r. apply last_prefix_texts.
  - apply last_last.
Qed.

End SessionFacts.

(** ** The streaming session controller *)

Module Session.
Import TraceFacts SessionFacts.

(** The name recorded for each category of the catalog is its own. *)
Lemma activeCategoryName_catalog :
  Forall (fun c => activeCategoryName (cat_id c) = cat_name c) TOOL_CATEGORIES.
Proof. repeat constructor. Qed.

(** The name looked up for an identifier is the name of the category of
    the catalog that has this identifier, and the empty string when no
    category has it. *)
Lemma activeCategoryName_spec (a : string) :
  (forall c, In c TOOL_CATEGORIES -> cat_id c = a ->
             activeCategoryName a = cat_name c)
  /\ ((forall c, In c TOOL_CATEGORIES -> cat_id c <> a) ->
      activeCategoryName a = "").
Proof.
  split.
  - intros c I <-.
    exact (proj1 (Forall_forall _ _) activeCategoryName_catalog c I).
  - intros H. unfold activeCategoryName.
    destruct (find (fun c => String.eqb (cat_id c) a) TOOL_CATEGORIES)
      as [c|] eqn:F; [|reflexivity].
    apply find_some in F as [I E]. apply String.eqb_eq in E.
    now elim (H c I).
Qed.

(** C1: when an accepted invocation's stream closes after its increments,
    one request is sent; after the reset of the output, each increment
    publishes the accumulator once, so the outputs published are the
    concatenations of the prefixes of the texts in arrival order; the final
    output is the concatenation of all the texts; and one entry is put
    first in the vault, which is then persisted.  That entry holds the
    concatenated text, the selected tool's name, and as its category name
    the name of the category of the catalog whose identifier is the
    active category (the empty string if there is no such category). *)
Theorem C1_stream_published_and_recorded
  (env : Env) (st : Store) (chunks : list Chunk) :
  accepted env st = true ->
  Completes env st chunks ->
  let m := handleGenerate env st in
  let entry (category : string) :=
    {| res_id := Js.number_toString (Date_now env 0);
       toolName := name (selectedTool st);
       categoryName := category;
       content := join (map text chunks);
       timestamp := Date_now env 1 |} in
  outcome m = inr tt
  /\ requests (trace m) = [request (selectedTool st) (promptInput st)]
  /\ published (trace m) = "" :: prefix_texts chunks
  /\ output (settle st (trace m)) = join (map text chunks)
  /\ exists category,
       (forall c, In c TOOL_CATEGORIES -> cat_id c = activeCategory st ->
                  category = cat_name c)
       /\ ((forall c, In c TOOL_CATEGORIES -> cat_id c <> activeCategory st) ->
           category = "")
       /\ vault_updates (trace m) = [Prepend15 (entry category)]
       /\ savedResources (settle st (trace m))
          = firstn 15 (entry category :: savedResources st)
       /\ wisian_history (settle st (trace m))
          = Some (WellFormed (firstn 15 (entry category :: savedResources st))).
Proof.
  intros A C m entry. subst m.
  assert (P : published (trace (handleGenerate env st))
              = "" :: prefix_texts chunks).
  { rewrite (completed_trace A C). unfold trace, fst. project env.
    cbn [published flat_map app]. now rewrite !app_nil_r. }
  assert (V : vault_updates (trace (handleGenerate env st))
              = [Prepend15 (entry (activeCategoryName (activeCategory st)))]).
  { rewrite (completed_trace A C). unfold trace, fst. project env.
    reflexivity. }
  assert (S : savedResources (run st (trace (handleGenerate env st)))
              = firstn 15 (entry (activeCategoryName (activeCategory st))
                             :: savedResources st)).
  { now rewrite savedResources_run, V. }
  split; [now rewrite (completed_trace A C)|].
  split.
  { rewrite (completed_trace A C). unfold trace, fst. project env.
    reflexivity. }
  split; [exact P|].
  split.
  { rewrite settle_output, output_run, P, last_cons.
    apply last_prefix_texts. }
  exists (activeCategoryName (activeCategory st)).
  destruct (activeCategoryName_spec (activeCategory st)) as [N1 N2].
  split; [intros c I E; now rewrite (N1 c I E)|].
  split; [exact N2|].
  split; [exact V|].
  split; [now rewrite settle_savedResources|].
  unfold settle. rewrite V. unfold persist. simpl wisian_history.
  now rewrite S.
Qed.

(** The scenario of the specification: ["Hello "] then ["World"], with the
    first tool of the catalog selected and its category active. *)
Lemma C1_hello_world :
  accepted Sample.serving Sample.ready = true
  /\ Completes Sample.serving Sample.ready (increments Sample.hello_world)
  /\ published (trace (handleGenerate Sample.serving Sample.ready))
     = [""; "Hello "; "Hello World"]
  /\ output (settle Sample.ready
               (trace (handleGenerate Sample.serving Sample.ready)))
     = "Hello World"
  /\ vault_updates (trace (handleGenerate Sample.serving Sample.ready))
     = [Prepend15
          {| res_id := "1700000000000";
             toolName := "Strategic Roadmap";
             categoryName := "Executive";
             content := "Hello World";
             timestamp := 1700000000001 |}].
Proof.
  pose proof (@C1_stream_published_and_recorded Sample.serving Sample.ready
                (increments Sample.hello_world) eq_refl (conj eq_refl eq_refl))
    as (_ & _ & P & O & category & N & _ & V & _).
  rewrite (N (mkCategory "leadership" "Executive" "fa-building")
             (or_introl eq_refl) eq_refl) in V.
  exact (conj eq_refl (conj (conj eq_refl eq_refl) (conj P (conj O V)))).
Defined.

(** C2: an invocation made while nothing is in progress, without access
    and without a key in the environment, publishes the text
    "### Access Denied", a line feed, "Wisian Corporation Protocol: Please
    authenticate to access the intelligence engine." and does nothing
    else: no client is built, no request is sent, and the in-progress
    indicator is never set. *)
Theorem C2_access_denied (env : Env) (st : Store) :
  isGenerating st = false ->
  hasAccess st = false ->
  Js.truthy_opt (API_KEY env) = false ->
  let m := handleGenerate env st in
  let denied :=
    ("### Access Denied"
       ++ String "010"
            "Wisian Corporation Protocol: Please authenticate to access the intelligence engine.")%string in
  trace m = [setOutput denied]
  /\ outcome m = inr tt
  /\ requests (trace m) = []
  /\ progress_trace (trace m) = []
  /\ output (settle st (trace m)) = denied
  /\ isGenerating (settle st (trace m)) = false.
Proof.
  intros G H K m denied. subst m denied.
  rewrite (@denied_trace env st G)
    by (unfold guard_passes; now rewrite H, K).
  repeat split. exact G.
Qed.

Lemma C2_locked_store :
  isGenerating Sample.locked = false
  /\ hasAccess Sample.locked = false
  /\ Js.truthy_opt (API_KEY Sample.keyless) = false
  /\ output (settle Sample.locked
               (trace (handleGenerate Sample.keyless Sample.locked)))
     = ("### Access Denied"
          ++ String "010"
               "Wisian Corporation Protocol: Please authenticate to access the intelligence engine.")%string.
Proof.
  pose proof (@C2_access_denied Sample.keyless Sample.locked
                eq_refl eq_refl eq_refl)
    as (_ & _ & _ & _ & O & _).
  exact (conj eq_refl (conj eq_refl (conj eq_refl O))).
Defined.

(** C9: while an attempt is in progress an invocation is ignored: it has
    no effect at all, sends no request, throws nothing, and leaves the
    store as it is. *)
Theorem C9_invocation_ignored_in_progress (env : Env) (st : Store) :
  isGenerating st = true ->
  let m := handleGenerate env st in
  trace m = []
  /\ outcome m = inr tt
  /\ settle st (trace m) = st.
Proof.
  intros G m. subst m. unfold handleGenerate. rewrite G.
  repeat split.
Qed.

Lemma C9_streaming_store :
  isGenerating Sample.streaming = true
  /\ trace (handleGenerate Sample.serving Sample.streaming) = []
  /\ settle Sample.streaming
       (trace (handleGenerate Sample.serving Sample.streaming))
     = Sample.streaming.
Proof.
  pose proof (@C9_invocation_ignored_in_progress Sample.serving
                Sample.streaming eq_refl)
    as (T & _ & S).
  exact (conj eq_refl (conj T S)).
Defined.

(** What a failed attempt gives the gate: [error] on the stale-credential
    signature, then [online] when the selection flow returns. *)
Lemma failed_gate_trace (env : Env) (st : Store) (e : JsError)
  (chunks : list Chunk) :
  accepted env st = true ->
  Failure env st e chunks ->
  gate_trace (trace (handleGenerate env st)) =
  if message_includes e "Requested entity was not found" then
    ApiStatus.error ::
      match aistudio env with
      | Some studio =>
          match openSelectKey studio with
          | Resolves _ => [ApiStatus.online]
          | Rejects _ => []
          end
      | None => []
      end
  else [].
Proof.
  intros A F.
  destruct (failed_trace A F) as (issued & I & ->).
  unfold trace, fst. rewrite catch_spec.
  change (new_GoogleGenAI (API_KEY env) :: issued
            ++ map setOutput (prefix_texts chunks))
    with ([new_GoogleGenAI (API_KEY env)] ++ issued
            ++ map setOutput (prefix_texts chunks)).
  project env.
  assert (Q : gate_trace issued = []) by (destruct I as [-> | ->]; reflexivity).
  rewrite Q. clear Q I.
  destruct (message_includes e "Requested entity was not found");
    [destruct (aistudio env) as [studio|];
     [destruct (openSelectKey studio) as [[]|e']|]|];
    reflexivity.
Qed.

(** What a failed attempt gives [hasAccess], in the same cases. *)
Lemma failed_access_trace (env : Env) (st : Store) (e : JsError)
  (chunks : list Chunk) :
  accepted env st = true ->
  Failure env st e chunks ->
  access_trace (trace (handleGenerate env st)) =
  if message_includes e "Requested entity was not found" then
    false ::
      match aistudio env with
      | Some studio =>
          match openSelectKey studio with
          | Resolves _ => [true]
          | Rejects _ => []
          end
      | None => []
      end
  else [].
Proof.
  intros A F.
  destruct (failed_trace A F) as (issued & I & ->).
  unfold trace, fst. rewrite catch_spec.
  change (new_GoogleGenAI (API_KEY env) :: issued
            ++ map setOutput (prefix_texts chunks))
    with ([new_GoogleGenAI (API_KEY env)] ++ issued
            ++ map setOutput (prefix_texts chunks)).
  project env.
  assert (Q : access_trace issued = [])
    by (destruct I as [-> | ->]; reflexivity).
  rewrite Q. clear Q I.
  destruct (message_includes e "Requested entity was not found");
    [destruct (aistudio env) as [studio|];
     [destruct (openSelectKey studio) as [[]|e']|]|];
    reflexivity.
Qed.


(** C3, at the input on which the code departs from the claim: the stream
    publishes ["Partial "] and then throws the stale-credential error, the
    host offers [window.aistudio], and its selection flow throws.  The
    [catch] block is left before its [setOutput]: the last output
    published is the partial text, neither fixed message is shown, and the
    handler's promise rejects. *)
Theorem C3_partial_output_survives_failed_reauth :
  accepted Sample.stale_dismissed Sample.ready = true
  /\ Failure Sample.stale_dismissed Sample.ready Sample.not_found
       [mkChunk "Partial "]
  /\ published (trace (handleGenerate Sample.stale_dismissed Sample.ready))
     = [""; "Partial "]
  /\ output (settle Sample.ready
               (trace (handleGenerate Sample.stale_dismissed Sample.ready)))
     = "Partial "
  /\ outcome (handleGenerate Sample.stale_dismissed Sample.ready)
     = inl (mkError (Some "dialog dismissed"))
  /\ isGenerating (settle Sample.ready
                     (trace (handleGenerate Sample.stale_dismissed Sample.ready)))
     = false.
Proof.
  split; [reflexivity|].
  split; [now apply StreamFaults|].
  repeat split.
Qed.

(** So it is not the case that every failed attempt ends with one of the
    two messages as its output. *)
Lemma failure_message_not_always_published :
  ~ (forall env st e chunks,
        accepted env st = true ->
        Failure env st e chunks ->
        output (settle st (trace (handleGenerate env st)))
        = AUTHENTICATION_FAILED
        \/ output (settle st (trace (handleGenerate env st)))
           = NETWORK_INTERRUPTION).
Proof.
  intros H.
  assert (F : Failure Sample.stale_dismissed Sample.ready Sample.not_found
                [mkChunk "Partial "]) by now apply StreamFaults.
  destruct (H Sample.stale_dismissed Sample.ready _ _ eq_refl F) as [O | O];
    vm_compute in O; discriminate O.
Qed.

(** C7: when an accepted attempt fails with an error whose message
    contains ["Requested entity was not found"], the gate is first set to
    [error]; if [window.aistudio] exists and its selection flow returns,
    the gate is then set to [online] and access is granted again, so the
    gate's trace is [error] then [online], whichever of the two failure
    messages is published; without [window.aistudio] the gate stays at
    [error]. *)
Theorem C7_stale_credential_gate_trace
  (env : Env) (st : Store) (e : JsError) (chunks : list Chunk)
  (before after : string) :
  accepted env st = true ->
  Failure env st e chunks ->
  message e
    = Some (before ++ "Requested entity was not found" ++ after)%string ->
  let m := handleGenerate env st in
  hd_error (gate_trace (trace m)) = Some ApiStatus.error
  /\ (forall studio,
        aistudio env = Some studio ->
        openSelectKey studio = Resolves tt ->
        gate_trace (trace m) = [ApiStatus.error; ApiStatus.online]
        /\ apiStatus (settle st (trace m)) = ApiStatus.online
        /\ hasAccess (settle st (trace m)) = true
        /\ output (settle st (trace m)) = failure_message e)
  /\ (aistudio env = None ->
      gate_trace (trace m) = [ApiStatus.error]
      /\ apiStatus (settle st (trace m)) = ApiStatus.error).
Proof.
  intros A F H m. subst m.
  pose proof (message_includes_intro _ _ _ _ H) as R.
  pose proof (failed_gate_trace A F) as G. rewrite R in G.
  pose proof (failed_access_trace A F) as T. rewrite R in T.
  split; [now rewrite G|].
  split.
  - intros studio S O. rewrite S, O in G, T.
    repeat split.
    + exact G.
    + now rewrite settle_apiStatus, apiStatus_run, G.
    + now rewrite settle_hasAccess, hasAccess_run, T.
    + rewrite (failed_output A F). unfold reauth_throws.
      now rewrite R, S, O.
  - intros S. rewrite S in G. split; [exact G|].
    now rewrite settle_apiStatus, apiStatus_run, G.
Qed.

Lemma C7_key_reselected :
  accepted Sample.stale_reselected Sample.ready = true
  /\ Failure Sample.stale_reselected Sample.ready Sample.not_found
       [mkChunk "Partial "]
  /\ gate_trace (trace (handleGenerate Sample.stale_reselected Sample.ready))
     = [ApiStatus.error; ApiStatus.online]
  /\ gate_trace (trace (handleGenerate Sample.stale_unattended Sample.ready))
     = [ApiStatus.error].
Proof.
  assert (F : Failure Sample.stale_reselected Sample.ready Sample.not_found
                [mkChunk "Partial "]) by now apply StreamFaults.
  assert (F' : Failure Sample.stale_unattended Sample.ready Sample.not_found
                 [mkChunk "Partial "]) by now apply StreamFaults.
  pose proof (@C7_stale_credential_gate_trace Sample.stale_reselected
                Sample.ready Sample.not_found [mkChunk "Partial "] "" "."
                eq_refl F eq_refl) as (_ & G & _).
  pose proof (@C7_stale_credential_gate_trace Sample.stale_unattended
                Sample.ready Sample.not_found [mkChunk "Partial "] "" "."
                eq_refl F' eq_refl) as (_ & _ & G').
  destruct (G Sample.studio_ok eq_refl eq_refl) as (T & _).
  destruct (G' eq_refl) as (T' & _).
  exact (conj eq_refl (conj F (conj T T'))).
Defined.

(** C10: an attempt that fails, at the entry guard or by a fault during
    issuance or streaming, records nothing: the vault and the stored
    snapshot after it are those before it; and an invocation that updates
    the vault is an accepted one whose stream closed naturally. *)
Theorem C10_failed_attempt_records_nothing (env : Env) (st : Store) :
  let tr := trace (handleGenerate env st) in
  (isGenerating st = false ->
   guard_passes env st = false
   \/ (exists e chunks, Failure env st e chunks) ->
   vault_updates tr = []
   /\ savedResources (settle st tr) = savedResources st
   /\ wisian_history (settle st tr) = wisian_history st)
  /\ (vault_updates tr <> [] ->
      accepted env st = true /\ exists chunks, Completes env st chunks).
Proof.
  intros tr. subst tr.
  assert (D : isGenerating st = false -> guard_passes env st = false ->
              vault_updates (trace (handleGenerate env st)) = []
              /\ removals (trace (handleGenerate env st)) = []).
  { intros G P. now rewrite (denied_trace env st G P). }
  split.
  - intros G [P | (e & chunks & F)].
    + destruct (D G P) as [V R].
      split; [exact V|]. now apply settle_frame.
    + destruct (guard_passes env st) eqn:P.
      * assert (A : accepted env st = true)
          by (unfold accepted; now rewrite G, P).
        destruct (failed_no_record A F) as [V R].
        split; [exact V|]. now apply settle_frame.
      * destruct (D G eq_refl) as [V R].
        split; [exact V|]. now apply settle_frame.
  - intros N.
    destruct (isGenerating st) eqn:G.
    { elim N. unfold handleGenerate. now rewrite G. }
    destruct (guard_passes env st) eqn:P.
    2:{ elim N. now apply D. }
    assert (A : accepted env st = true)
      by (unfold accepted; now rewrite G, P).
    split; [exact A|].
    destruct (body_cases env st) as [(e & chunks & F) | C]; [|exact C].
    elim N. now apply (failed_no_record A F).
Qed.

Lemma C10_broken_stream :
  isGenerating Sample.ready = false
  /\ Failure Sample.stale_dismissed Sample.ready Sample.not_found
       [mkChunk "Partial "]
  /\ savedResources
       (settle Sample.ready
          (trace (handleGenerate Sample.stale_dismissed Sample.ready)))
     = savedResources Sample.ready
  /\ wisian_history
       (settle Sample.ready
          (trace (handleGenerate Sample.stale_dismissed Sample.ready)))
     = wisian_history Sample.ready
  /\ vault_updates (trace (handleGenerate Sample.serving Sample.ready)) <> []
  /\ accepted Sample.serving Sample.ready = true.
Proof.
  assert (F : Failure Sample.stale_dismissed Sample.ready Sample.not_found
                [mkChunk "Partial "]) by now apply StreamFaults.
  assert (N : vault_updates (trace (handleGenerate Sample.serving Sample.ready))
              <> []) by discriminate.
  pose proof (proj1 (proj2 (@C10_failed_attempt_records_nothing
                              Sample.serving Sample.ready) N)) as A.
  pose proof (proj1 (@C10_failed_attempt_records_nothing
                       Sample.stale_dismissed Sample.ready)
                eq_refl
                (or_intror (ex_intro _ _ (ex_intro _ _ F))))
    as (_ & S & W).
  exact (conj eq_refl (conj F (conj S (conj W (conj N A))))).
Defined.

(** An accepted invocation sets the indicator first and clears it last,
    and never touches it in between. *)
Lemma attempt_shape (env : Env) (st : Store) :
  accepted env st = true ->
  exists mid,
    trace (handleGenerate env st)
    = setIsGenerating true :: mid ++ [setIsGenerating false]
    /\ progress_trace mid = [].
Proof.
  intros A. rewrite (handleGenerate_accepted _ _ A).
  exists (setOutput "" :: scroll env
            ++ trace (try_catch (generate_body env st) (generate_catch env))).
  split; [unfold trace, fst; simpl; now rewrite <- app_assoc|].
  change (progress_trace
            ([setOutput ""] ++ scroll env
               ++ trace (try_catch (generate_body env st) (generate_catch env)))
          = []).
  project env. cbn [progress_trace flat_map app].
  destruct (body_cases env st) as [(e & chunks & F) | (chunks & C)].
  - destruct (body_fails F) as (issued & I & ->).
    rewrite try_catch_thrown. unfold trace at 1, fst. rewrite catch_spec.
    change (new_GoogleGenAI (API_KEY env) :: issued
              ++ map setOutput (prefix_texts chunks))
      with ([new_GoogleGenAI (API_KEY env)] ++ issued
              ++ map setOutput (prefix_texts chunks)).
    project env.
    destruct I as [-> | ->];
      (destruct (message_includes e "Requested entity was not found");
       [destruct (aistudio env) as [studio|];
        [destruct (openSelectKey studio) as [[]|e']|]|]);
      reflexivity.
  - rewrite (body_completes C). unfold try_catch, trace, fst.
    project env. reflexivity.
Qed.

(** At every point strictly inside an accepted attempt the indicator is
    set, so that an invocation made there, on any host, is ignored. *)
Lemma invocation_inside_attempt_ignored
  (env env' : Env) (st : Store) (done rest : list Effect) :
  accepted env st = true ->
  trace (handleGenerate env st) = done ++ rest ->
  done <> [] -> rest <> [] ->
  isGenerating (run st done) = true
  /\ handleGenerate env' (run st done) = ([], inr tt).
Proof.
  intros A E D R.
  destruct (attempt_shape _ _ A) as (mid & T & Q). rewrite T in E.
  destruct done as [|x done']; [now elim D|].
  destruct (exists_last R) as (rest' & y & ->).
  injection E as <- E.
  rewrite app_assoc in E. apply app_inj_tail in E as [E _].
  rewrite E, progress_trace_app in Q. apply app_eq_nil in Q as [Q _].
  assert (G : isGenerating (run st (setIsGenerating true :: done')) = true).
  { rewrite isGenerating_run.
    change (progress_trace (setIsGenerating true :: done'))
      with (true :: progress_trace done').
    now rewrite Q. }
  split; [exact G|].
  unfold handleGenerate. now rewrite G.
Qed.

End Session.

(** ** The history vault *)

Module Vault.
Import TraceFacts SessionFacts.

(** What the page holds after loading: the parsed snapshot as it is, or
    nothing; and the stored item rewritten from it. *)
Lemma startup_vault (env : Env) (item : option StoredText) :
  savedResources (startup env item)
  = match item with
    | Some (WellFormed snapshot) => snapshot
    | _ => []
    end
  /\ wisian_history (startup env item)
     = Some (WellFormed (savedResources (startup env item))).
Proof.
  split; [|reflexivity].
  unfold startup. change (savedResources (persist ?s)) with (savedResources s).
  rewrite savedResources_run. unfold mount.
  assert (Q : forall k : unit -> M unit,
             vault_updates (trace (k tt)) = [] ->
             outcome (loadHistory (initialStore item)) = inr tt ->
             vault_updates (trace (bind (loadHistory (initialStore item)) k))
             = vault_updates (trace (loadHistory (initialStore item)))).
  { intros k K O. destruct (loadHistory (initialStore item)) as [t [e|[]]];
      [discriminate O|].
    rewrite bind_ok. unfold trace at 1, fst.
    now rewrite vault_updates_app, K, app_nil_r. }
  rewrite Q.
  - now destruct item as [[| |snapshot]|].
  - unfold checkAuth, categoryEffect.
    destruct (aistudio env) as [studio|];
      [destruct (hasSelectedApiKey studio)
      |destruct (Js.truthy_opt (API_KEY env))];
      reflexivity.
  - now destruct item as [[| |snapshot]|].
Qed.

(** Running a trace leaves the stored item or removes it. *)
Lemma wisian_history_run_cases (tr : list Effect) (st : Store) :
  wisian_history (run st tr) = wisian_history st
  \/ wisian_history (run st tr) = None.
Proof.
  revert st; induction tr as [|e tr IH]; intros st; [now left|].
  change (run st (e :: tr)) with (run (apply st e) tr).
  destruct (IH (apply st e)) as [H|H]; [|now right].
  rewrite H. destruct e; try (now left). now right.
Qed.

Lemma fold_fits (us : list VaultUpdate) (vault : list SavedResource) :
  Forall fits_capacity us ->
  length vault <= 15 ->
  length (fold_left (fun v u => vault_update u v) us vault) <= 15.
Proof.
  revert vault; induction us as [|u us IH]; intros vault F L; [exact L|].
  inversion F as [|? ? Hu Hus]; subst. simpl. apply IH; [exact Hus|].
  destruct u as [l|r]; [exact Hu|].
  unfold vault_update. rewrite length_firstn. apply Nat.le_min_l.
Qed.

(** A handler whose updates fit the capacity keeps the store within it. *)
Lemma settle_within_capacity (st : Store) (tr : list Effect) :
  within_capacity st ->
  Forall fits_capacity (vault_updates tr) ->
  within_capacity (settle st tr).
Proof.
  intros [L B] F.
  assert (L' : length (savedResources (run st tr)) <= 15)
    by (rewrite savedResources_run; now apply fold_fits).
  unfold settle. destruct (vault_updates tr) as [|u us].
  - split; [exact L'|].
    destruct (wisian_history_run_cases tr st) as [-> | ->]; [exact B|exact I].
  - split; [exact L'|exact L'].
Qed.

(** [handleGenerate] updates the vault by prepending, at most once. *)
Lemma generate_fits (env : Env) (st : Store) :
  Forall fits_capacity (vault_updates (trace (handleGenerate env st))).
Proof.
  destruct (isGenerating st) eqn:G.
  { unfold handleGenerate. rewrite G. constructor. }
  destruct (guard_passes env st) eqn:P.
  2:{ rewrite (denied_trace env st G P). constructor. }
  assert (A : accepted env st = true) by (unfold accepted; now rewrite G, P).
  destruct (body_cases env st) as [(e & chunks & F) | (chunks & C)].
  - destruct (failed_no_record A F) as [-> _]. constructor.
  - rewrite (completed_trace A C). unfold trace, fst. project env.
    repeat constructor.
Qed.

Lemma startup_within_capacity (env : Env) (item : option StoredText) :
  snapshot_bounded item -> within_capacity (startup env item).
Proof.
  intros B. destruct (startup_vault env item) as [V W].
  assert (L : length (savedResources (startup env item)) <= 15).
  { rewrite V. destruct item as [[| |snapshot]|]; simpl; try lia. exact B. }
  split; [exact L|]. rewrite W. exact L.
Qed.

Lemma step_within_capacity (st : Store) (a : Action) :
  within_capacity st -> within_capacity (step st a).
Proof.
  intros I. destruct a as [env|env|confirmed|env r|value|tool|env];
    unfold step.
  - apply settle_within_capacity; [exact I | apply generate_fits].
  - apply settle_within_capacity; [exact I|].
    unfold handleAuth.
    destruct (aistudio env) as [studio|];
      [destruct (openSelectKey studio) as [[]|e]
      |destruct (Js.truthy_opt (API_KEY env))];
      constructor.
  - apply settle_within_capacity; [exact I|].
    destruct confirmed; repeat constructor.
  - apply settle_within_capacity; [exact I|].
    unfold loadFromHistory. destruct (terminal_view env); constructor.
  - exact I.
  - apply settle_within_capacity; [exact I | constructor].
  - apply startup_within_capacity. exact (proj2 I).
Qed.

Lemma steps_within_capacity (actions : list Action) (st : Store) :
  within_capacity st -> within_capacity (steps st actions).
Proof.
  revert st; induction actions as [|a actions IH]; intros st I; [exact I|].
  apply IH, step_within_capacity, I.
Qed.

Lemma firstn_Forall (A : Type) (P : A -> Prop) (n : nat) (l : list A) :
  Forall P l -> Forall P (firstn n l).
Proof.
  intros F. revert n; induction F as [|x l Hx F IHF]; intros n.
  - destruct n; constructor.
  - destruct n; constructor; [exact Hx | apply IHF].
Qed.

Lemma firstn_newest_first (n : nat) (vault : list SavedResource) :
  newest_first vault -> newest_first (firstn n vault).
Proof.
  revert n; induction vault as [|r rest IH]; intros n H.
  - now destruct n.
  - destruct n as [|n]; [exact I|].
    destruct H as [F H]. split; [now apply firstn_Forall | now apply IH].
Qed.

(** What [handleGenerate] does to the vault: nothing, and then it
    removes nothing from the storage either, or one prepending of the
    entry of a completed stream. *)
Lemma generate_vault_cases (env : Env) (st : Store) :
  (vault_updates (trace (handleGenerate env st)) = []
   /\ removals (trace (handleGenerate env st)) = [])
  \/ exists chunks,
       vault_updates (trace (handleGenerate env st))
       = [Prepend15 (newResource env st chunks)].
Proof.
  destruct (isGenerating st) eqn:G.
  { left. unfold handleGenerate. rewrite G. now split. }
  destruct (guard_passes env st) eqn:P.
  2:{ left. rewrite (denied_trace env st G P). now split. }
  assert (A : accepted env st = true) by (unfold accepted; now rewrite G, P).
  destruct (body_cases env st) as [(e & chunks & F) | (chunks & C)].
  - left. exact (failed_no_record A F).
  - right. exists chunks.
    rewrite (completed_trace A C). unfold trace, fst. project env.
    reflexivity.
Qed.

(** An action keeps the stored snapshot equal to the vault, and leaves
    the vault, or empties it, or prepends the entry of a generation. *)
Lemma step_vault (st : Store) (a : Action) :
  wisian_history st = Some (WellFormed (savedResources st)) ->
  wisian_history (step st a) = Some (WellFormed (savedResources (step st a)))
  /\ (savedResources (step st a) = savedResources st
      \/ savedResources (step st a) = []
      \/ exists env chunks,
           a = Generate env
           /\ savedResources (step st a)
              = firstn 15 (newResource env st chunks :: savedResources st)).
Proof.
  intros Q.
  destruct a as [env|env|confirmed|env r|value|tool|env]; unfold step.
  - destruct (generate_vault_cases env st) as [[V R] | [chunks V]].
    + destruct (settle_frame st _ V R) as (_ & S & W).
      rewrite S, W. split; [exact Q | now left].
    + assert (S : savedResources (settle st (trace (handleGenerate env st)))
                  = firstn 15 (newResource env st chunks :: savedResources st))
        by now rewrite settle_savedResources, savedResources_run, V.
      split.
      * unfold settle. now rewrite V.
      * right. right. now exists env, chunks.
  - unfold handleAuth.
    destruct (aistudio env) as [studio|];
      [destruct (openSelectKey studio) as [[]|e]
      |destruct (Js.truthy_opt (API_KEY env))];
      (split; [exact Q | now left]).
  - destruct confirmed.
    + split; [reflexivity | right; now left].
    + split; [exact Q | now left].
  - unfold loadFromHistory.
    destruct (terminal_view env); (split; [exact Q | now left]).
  - split; [exact Q | now left].
  - split; [exact Q | now left].
  - rewrite Q.
    destruct (startup_vault env (Some (WellFormed (savedResources st))))
      as [V W].
    split; [exact W | now left].
Qed.

Lemma stamps_cons (a : Action) (actions : list Action) :
  stamps (a :: actions) = stamps [a] ++ stamps actions.
Proof. unfold stamps. simpl. now rewrite app_nil_r. Qed.

Lemma non_decreasing_app (p q : list Z) :
  non_decreasing (p ++ q) -> non_decreasing q.
Proof.
  induction p as [|t p IH]; [trivial|].
  intros [_ H]. now apply IH.
Qed.

(** From a store whose snapshot is the vault, under a clock that never
    goes back and has never been ahead of the readings to come, the
    vault stays ordered newest first. *)
Lemma steps_newest_first (actions : list Action) (st : Store) :
  wisian_history st = Some (WellFormed (savedResources st)) ->
  newest_first (savedResources st) ->
  Forall (fun r => Forall (fun t => (timestamp r <= t)%Z) (stamps actions))
    (savedResources st) ->
  non_decreasing (stamps actions) ->
  newest_first (savedResources (steps st actions))
  /\ wisian_history (steps st actions)
     = Some (WellFormed (savedResources (steps st actions))).
Proof.
  revert st; induction actions as [|a actions IH]; intros st Q N B D.
  { now split. }
  change (steps st (a :: actions)) with (steps (step st a) actions).
  rewrite stamps_cons in B, D.
  assert (B' : Forall (fun r => Forall (fun t => (timestamp r <= t)%Z)
                                  (stamps actions)) (savedResources st)).
  { eapply Forall_impl; [|exact B]. intros r H.
    now apply Forall_app in H as [_ H]. }
  destruct (@step_vault st a Q) as [Q' [E | [E | (env & chunks & -> & E)]]].
  - apply IH; [exact Q' | now rewrite E | now rewrite E|].
    exact (@non_decreasing_app _ _ D).
  - apply IH; [exact Q' | now rewrite E | rewrite E; constructor|].
    exact (@non_decreasing_app _ _ D).
  - change (stamps [Generate env]) with [Date_now env 1] in B, D.
    destruct D as [D1 D2].
    change (firstn 15 (newResource env st chunks :: savedResources st))
      with (newResource env st chunks :: firstn 14 (savedResources st)) in E.
    apply IH; [exact Q' | rewrite E | rewrite E | exact D2].
    + split; [|now apply firstn_newest_first].
      apply firstn_Forall. eapply Forall_impl; [|exact B].
      intros r H. now inversion H.
    + constructor; [exact D1 | now apply firstn_Forall].
Qed.

(** C4: a record call puts the new entry first, keeps the earlier entries
    behind it in their order up to the capacity, and leaves
    [min 15 (priorLength + 1)] entries, whatever the prior length.  In
    every state reached from a first start (nothing stored yet) by
    generations, authentications, purges, openings of an entry, inputs,
    tool choices and reloads of the page, the vault holds at most fifteen
    entries and the stored snapshot is the vault itself, so that the
    vault is within the capacity right after each reload too; and when
    the clock never goes back from one generation to the next, the vault
    is ordered newest first in every such state. *)
Theorem C4_vault_bounded_newest_first :
  (forall r prev,
      vault_update (Prepend15 r) prev = r :: firstn 14 prev
      /\ length (vault_update (Prepend15 r) prev) = min 15 (length prev + 1))
  /\ (forall env actions,
         let st := steps (startup env None) actions in
         length (savedResources st) <= 15
         /\ wisian_history st = Some (WellFormed (savedResources st)))
  /\ (forall env actions,
         non_decreasing (stamps actions) ->
         newest_first (savedResources (steps (startup env None) actions))).
Proof.
  assert (Q : forall env,
             wisian_history (startup env None)
             = Some (WellFormed (savedResources (startup env None))))
    by (intros env; apply (startup_vault env None)).
  assert (E : forall env, savedResources (startup env None) = [])
    by (intros env; apply (startup_vault env None)).
  split; [|split].
  - intros r prev. split; [reflexivity|].
    unfold vault_update. rewrite length_firstn. simpl length. lia.
  - intros env actions st. split.
    + apply (steps_within_capacity actions),
        (startup_within_capacity env None), I.
    + assert (G : forall l s,
                 wisian_history s = Some (WellFormed (savedResources s)) ->
                 wisian_history (steps s l)
                 = Some (WellFormed (savedResources (steps s l)))).
      { induction l as [|a l IH]; intros s H; [exact H|].
        apply IH, (@step_vault s a H). }
      apply G, Q.
  - intros env actions D.
    apply (steps_newest_first actions); [apply Q | | | exact D];
      rewrite E; constructor.
Qed.

Lemma C4_two_generations_and_a_reload :
  non_decreasing
    (stamps [Generate Sample.serving; Generate Sample.serving;
             Reload Sample.keyless])
  /\ newest_first
       (savedResources
          (steps (startup Sample.serving None)
             [Generate Sample.serving; Generate Sample.serving;
              Reload Sample.keyless]))
  /\ length
       (savedResources
          (steps (startup Sample.serving None)
             [Generate Sample.serving; Generate Sample.serving;
              Reload Sample.keyless]))
     = 2.
Proof.
  assert (D : non_decreasing
                (stamps [Generate Sample.serving; Generate Sample.serving;
                         Reload Sample.keyless])).
  { simpl. repeat split; repeat constructor. unfold Sample.clock. lia. }
  destruct C4_vault_bounded_newest_first as (_ & _ & N).
  exact (conj D (conj (N Sample.serving _ D) eq_refl)).
Defined.

(** The mount effects never throw. *)
Lemma mount_returns (env : Env) (item : option StoredText) :
  outcome (mount env (initialStore item)) = inr tt.
Proof.
  unfold mount, checkAuth, categoryEffect.
  destruct item as [[| |snapshot]|];
    (destruct (aistudio env) as [studio|];
     [destruct (hasSelectedApiKey studio)
     |destruct (Js.truthy_opt (API_KEY env))]);
    reflexivity.
Qed.

(** C8: when the stored snapshot is not valid JSON, the load leaves the
    vault empty and throws nothing; all it does is write one line to the
    console, and not even that for the empty string, which it does not
    try to parse.  The output shown to the user stays empty, and the
    stored item is rewritten from the empty vault. *)
Theorem C8_invalid_snapshot_discarded (env : Env) (item : option StoredText) :
  invalid_json item = true ->
  outcome (loadHistory (initialStore item)) = inr tt
  /\ outcome (mount env (initialStore item)) = inr tt
  /\ trace (loadHistory (initialStore item))
     = match item with
       | Some Malformed => [console_error "Failed to parse history"]
       | _ => []
       end
  /\ savedResources (startup env item) = []
  /\ output (startup env item) = ""
  /\ wisian_history (startup env item) = Some (WellFormed []).
Proof.
  intros H.
  destruct (startup_vault env item) as [V W].
  assert (E : savedResources (startup env item) = []).
  { rewrite V. now destruct item as [[| |snapshot]|]. }
  split; [now destruct item as [[| |snapshot]|]|].
  split; [apply mount_returns|].
  split; [now destruct item as [[| |snapshot]|]|].
  split; [exact E|].
  split; [|now rewrite W, E].
  unfold startup. change (output (persist ?s)) with (output s).
  rewrite output_run.
  assert (P : published (trace (mount env (initialStore item))) = []).
  { unfold mount, checkAuth, categoryEffect.
    destruct item as [[| |snapshot]|];
      (destruct (aistudio env) as [studio|];
       [destruct (hasSelectedApiKey studio)
       |destruct (Js.truthy_opt (API_KEY env))]);
      reflexivity. }
  now rewrite P.
Qed.

Lemma C8_malformed_snapshot :
  invalid_json (Some Malformed) = true
  /\ savedResources (startup Sample.keyless (Some Malformed)) = []
  /\ trace (loadHistory (initialStore (Some Malformed)))
     = [console_error "Failed to parse history"].
Proof.
  pose proof (@C8_invalid_snapshot_discarded Sample.keyless (Some Malformed)
                eq_refl) as (_ & _ & T & E & _).
  exact (conj eq_refl (conj E T)).
Defined.

End Vault.

(** ** More on the session controller *)

Module Controller.
Import TraceFacts SessionFacts.


Lemma not_accepted_cases (env : Env) (st : Store) :
  accepted env st = false ->
  isGenerating st = true
  \/ (isGenerating st = false /\ guard_passes env st = false).
Proof.
  unfold accepted. destruct (isGenerating st); [now left|].
  simpl. intros H. right. now split.
Qed.

(** What an invocation that is not accepted does. *)
Lemma not_accepted_trace (env : Env) (st : Store) :
  accepted env st = false ->
  handleGenerate env st = ([], inr tt)
  \/ handleGenerate env st = ([setOutput ACCESS_DENIED], inr tt).
Proof.
  intros H. destruct (not_accepted_cases _ _ H) as [G | [G P]].
  - left. unfold handleGenerate. now rewrite G.
  - right. now apply denied_trace.
Qed.

Lemma indicator_cleared (env : Env) (st : Store) :
  isGenerating st = false ->
  isGenerating (settle st (trace (handleGenerate env st))) = false.
Proof.
  intros G. rewrite settle_isGenerating, isGenerating_run.
  destruct (accepted env st) eqn:A.
  - destruct (Session.attempt_shape _ _ A) as (mid & -> & Q).
    change (setIsGenerating true :: mid ++ [setIsGenerating false])
      with ([setIsGenerating true] ++ mid ++ [setIsGenerating false]).
    rewrite !progress_trace_app, Q. reflexivity.
  - destruct (not_accepted_trace _ _ A) as [-> | ->]; exact G.
Qed.

(** X1: whatever happens to an invocation made while nothing is in
    progress (denied, completed, failed, or left by an exception of the
    selection flow), the in-progress indicator is clear once it is
    over. *)
Theorem indicator_cleared_after_invocation (env : Env) (st : Store) :
  isGenerating st = false ->
  isGenerating (settle st (trace (handleGenerate env st))) = false.
Proof.
  intros G. rewrite settle_isGenerating, isGenerating_run.
  destruct (accepted env st) eqn:A.
  - destruct (Session.attempt_shape _ _ A) as (mid & -> & Q).
    change (setIsGenerating true :: mid ++ [setIsGenerating false])
      with ([setIsGenerating true] ++ mid ++ [setIsGenerating false]).
    rewrite !progress_trace_app, Q. reflexivity.
  - destruct (not_accepted_trace _ _ A) as [-> | ->]; exact G.
Qed.

Lemma indicator_cleared_after_rejection :
  isGenerating Sample.ready = false
  /\ isGenerating
       (settle Sample.ready
          (trace (handleGenerate Sample.stale_dismissed Sample.ready)))
     = false.
Proof.
  exact (conj eq_refl
           (@indicator_cleared_after_invocation Sample.stale_dismissed
              Sample.ready eq_refl)).
Defined.





(** X4: the promise of [handleGenerate] rejects in one situation only: an
    accepted attempt failed with a message that contains "Requested
    entity was not found", [window.aistudio] exists and its selection
    flow rejects; and what it rejects with is the error of that flow,
    never the error of the generation. *)
Theorem rejects_only_with_selection_error (env : Env) (st : Store)
  (e' : JsError) :
  outcome (handleGenerate env st) = inl e' <->
  accepted env st = true
  /\ exists e chunks studio before after,
       Failure env st e chunks
       /\ message e
          = Some (before ++ "Requested entity was not found" ++ after)%string
       /\ aistudio env = Some studio
       /\ openSelectKey studio = Rejects e'.
Proof.
  split.
  - intros O. destruct (accepted env st) eqn:A.
    2:{ destruct (not_accepted_trace _ _ A) as [H | H];
          rewrite H in O; discriminate O. }
    split; [reflexivity|].
    destruct (body_cases env st) as [(e & chunks & F) | (chunks & C)].
    2:{ rewrite (completed_trace A C) in O. discriminate O. }
    exists e, chunks.
    destruct (failed_trace A F) as (issued & _ & H). rewrite H in O.
    unfold outcome, snd in O. rewrite catch_spec in O.
    destruct (message_includes e "Requested entity was not found") eqn:R;
      [destruct (aistudio env) as [studio|];
       [destruct (openSelectKey studio) as [[]|e''] eqn:K|]|];
      try discriminate O.
    injection O as ->. exists studio.
    unfold message_includes in R.
    destruct (message e) as [text|] eqn:M; [|discriminate R].
    apply JsFacts.includes_spec in R as (before & after & ->).
    exists before, after. repeat split; assumption.
  - intros (A & e & chunks & studio & before & after & F & M & S & K).
    pose proof (message_includes_intro _ _ _ _ M) as R.
    destruct (failed_trace A F) as (issued & _ & ->).
    unfold outcome, snd. rewrite catch_spec, R, S, K. reflexivity.
Qed.

Lemma rejects_only_with_selection_error_sample :
  outcome (handleGenerate Sample.stale_dismissed Sample.ready)
  = inl (mkError (Some "dialog dismissed")).
Proof.
  apply (proj2 (rejects_only_with_selection_error Sample.stale_dismissed
                  Sample.ready (mkError (Some "dialog dismissed")))).
  split; [reflexivity|].
  exists Sample.not_found, [mkChunk "Partial "], Sample.studio_dismissed,
    "", ".".
  repeat split. now apply StreamFaults.
Defined.

(** X5: when an accepted attempt fails with a message that contains
    "Requested entity was not found" and access is not given back (there
    is no [window.aistudio], or its selection flow rejects), the store is
    left without access, with the gate at [error] and nothing in
    progress; the next invocation on a host without a key in the
    environment then sends no request and publishes only the Access
    Denied text. *)
Theorem stale_credential_locks_the_engine (env : Env) (st : Store)
  (e : JsError) (chunks : list Chunk) (before after : string) :
  accepted env st = true ->
  Failure env st e chunks ->
  message e
    = Some (before ++ "Requested entity was not found" ++ after)%string ->
  aistudio env = None
  \/ (exists studio e',
        aistudio env = Some studio /\ openSelectKey studio = Rejects e') ->
  let st' := settle st (trace (handleGenerate env st)) in
  hasAccess st' = false
  /\ apiStatus st' = ApiStatus.error
  /\ isGenerating st' = false
  /\ forall env',
       Js.truthy_opt (API_KEY env') = false ->
       requests (trace (handleGenerate env' st')) = []
       /\ published (trace (handleGenerate env' st'))
          = [("### Access Denied"
                ++ String "010"
                     "Wisian Corporation Protocol: Please authenticate to access the intelligence engine.")%string].
Proof.
  intros A F M H st'.
  pose proof (message_includes_intro _ _ _ _ M) as R.
  pose proof (Session.failed_gate_trace A F) as G. rewrite R in G.
  pose proof (Session.failed_access_trace A F) as T. rewrite R in T.
  assert (I : isGenerating st = false).
  { unfold accepted in A. now destruct (isGenerating st). }
  assert (X : hasAccess st' = false /\ apiStatus st' = ApiStatus.error).
  { subst st'. rewrite settle_hasAccess, hasAccess_run, T.
    rewrite settle_apiStatus, apiStatus_run, G.
    destruct H as [-> | (studio & e' & -> & ->)]; now split. }
  destruct X as [X1 X2].
  assert (X3 : isGenerating st' = false) by now apply indicator_cleared.
  repeat split; try assumption.
  - rewrite (@denied_trace env' st' X3); [reflexivity|].
    unfold guard_passes. now rewrite X1, H0.
  - rewrite (@denied_trace env' st' X3); [reflexivity|].
    unfold guard_passes. now rewrite X1, H0.
Qed.

Lemma stale_credential_locks_the_engine_sample :
  accepted Sample.stale_dismissed Sample.ready = true
  /\ hasAccess
       (settle Sample.ready
          (trace (handleGenerate Sample.stale_dismissed Sample.ready)))
     = false
  /\ requests
       (trace (handleGenerate Sample.keyless
                 (settle Sample.ready
                    (trace (handleGenerate Sample.stale_dismissed
                              Sample.ready)))))
     = [].
Proof.
  assert (F : Failure Sample.stale_dismissed Sample.ready Sample.not_found
                [mkChunk "Partial "]) by now apply StreamFaults.
  destruct (@stale_credential_locks_the_engine Sample.stale_dismissed
              Sample.ready _ _ "" "." eq_refl F eq_refl
              (or_intror
                 (ex_intro _ Sample.studio_dismissed
                    (ex_intro _ (mkError (Some "dialog dismissed"))
                       (conj eq_refl eq_refl)))))
    as (H & _ & _ & D).
  exact (conj eq_refl (conj H (proj1 (D Sample.keyless eq_refl)))).
Defined.

End Controller.

(** ** The credential gate *)

Module Gate.
Import TraceFacts SessionFacts.

(** A trace that sets neither the gate nor the access flag leaves both. *)
Lemma settle_gate_frame (st : Store) (tr : list Effect) :
  gate_trace tr = [] -> access_trace tr = [] ->
  apiStatus (settle st tr) = apiStatus st
  /\ hasAccess (settle st tr) = hasAccess st.
Proof.
  intros G T. rewrite settle_apiStatus, apiStatus_run, G.
  rewrite settle_hasAccess, hasAccess_run, T. now split.
Qed.

(** The gate and the access flag once the page has loaded. *)
Lemma startup_gate (env : Env) (item : option StoredText) :
  (apiStatus (startup env item), hasAccess (startup env item))
  = match aistudio env with
    | Some studio =>
        (if hasSelectedApiKey studio
         then ApiStatus.online else ApiStatus.idle,
         hasSelectedApiKey studio)
    | None =>
        (if Js.truthy_opt (API_KEY env)
         then ApiStatus.online else ApiStatus.error,
         Js.truthy_opt (API_KEY env))
    end.
Proof.
  unfold startup, mount, checkAuth, categoryEffect.
  destruct item as [[| |snapshot]|];
    (destruct (aistudio env) as [studio|];
     [destruct (hasSelectedApiKey studio)
     |destruct (Js.truthy_opt (API_KEY env))]);
    reflexivity.
Qed.

(** X6: once the page has loaded, access is granted exactly when the gate
    is [online].  With [window.aistudio] the answer of
    [hasSelectedApiKey] decides, a key in the environment is not looked
    at, and the gate is never [error]; without it the key in the
    environment decides and the gate is never [idle]. *)
Theorem access_agrees_with_gate_after_load
  (env : Env) (item : option StoredText) :
  let st := startup env item in
  (hasAccess st = true <-> apiStatus st = ApiStatus.online)
  /\ (forall studio,
        aistudio env = Some studio ->
        hasAccess st = hasSelectedApiKey studio
        /\ apiStatus st <> ApiStatus.error)
  /\ (aistudio env = None ->
      hasAccess st = Js.truthy_opt (API_KEY env)
      /\ apiStatus st <> ApiStatus.idle).
Proof.
  intros st. subst st. pose proof (startup_gate env item) as H.
  pose proof (f_equal fst H) as H1. pose proof (f_equal snd H) as H2.
  cbn [fst snd] in H1, H2. clear H.
  destruct (aistudio env) as [studio|].
  - cbn [fst snd] in H1, H2. rewrite H1, H2.
    split; [|split].
    + destruct (hasSelectedApiKey studio); split; congruence.
    + intros studio' S. injection S as <-.
      split; [reflexivity|]. destruct (hasSelectedApiKey studio); congruence.
    + intros S. discriminate S.
  - cbn [fst snd] in H1, H2. rewrite H1, H2.
    split; [|split].
    + destruct (Js.truthy_opt (API_KEY env)); split; congruence.
    + intros studio' S. discriminate S.
    + intros _. split; [reflexivity|].
      destruct (Js.truthy_opt (API_KEY env)); congruence.
Qed.

Lemma access_agrees_with_gate_sample :
  aistudio Scenario.studio_host = Some Scenario.studio_unselected
  /\ hasAccess (startup Scenario.studio_host None) = false
  /\ aistudio Sample.serving = None
  /\ hasAccess (startup Sample.serving None) = true.
Proof.
  destruct (access_agrees_with_gate_after_load Scenario.studio_host None)
    as (_ & S & _).
  destruct (access_agrees_with_gate_after_load Sample.serving None)
    as (_ & _ & N).
  exact (conj eq_refl
           (conj (proj1 (S _ eq_refl)) (conj eq_refl (proj1 (N eq_refl))))).
Defined.

(** X7: [handleAuth] never throws.  When the selection flow returns,
    access is granted and the gate set to [online] without asking
    [hasSelectedApiKey]; when it rejects, the gate is set to [error] but
    the access flag is left, so the entry guard of a generation decides
    as before; without [window.aistudio] and without a key in the
    environment only an alert is shown and the store is unchanged. *)
Theorem handleAuth_outcomes (env : Env) (st : Store) :
  let st' := step st (Authenticate env) in
  outcome (handleAuth env) = inr tt
  /\ (forall studio,
        aistudio env = Some studio ->
        openSelectKey studio = Resolves tt ->
        hasAccess st' = true /\ apiStatus st' = ApiStatus.online)
  /\ (forall studio e,
        aistudio env = Some studio ->
        openSelectKey studio = Rejects e ->
        hasAccess st' = hasAccess st
        /\ apiStatus st' = ApiStatus.error
        /\ forall env', guard_passes env' st' = guard_passes env' st)
  /\ (aistudio env = None ->
      Js.truthy_opt (API_KEY env) = false ->
      st' = st
      /\ trace (handleAuth env)
         = [alert "Security Clearance required. No API key detected in environment."]).
Proof.
  intros st'. subst st'. unfold step, handleAuth.
  split; [|split; [|split]].
  - destruct (aistudio env) as [studio|];
      [destruct (openSelectKey studio) as [[]|e]
      |destruct (Js.truthy_opt (API_KEY env))];
      reflexivity.
  - intros studio -> ->. split; reflexivity.
  - intros studio e -> ->. repeat split.
  - intros -> ->. split; [now destruct st|reflexivity].
Qed.

Lemma handleAuth_outcomes_sample :
  hasAccess (step Sample.locked (Authenticate Scenario.studio_host)) = true
  /\ apiStatus (step Sample.ready (Authenticate Scenario.studio_host_dismissed))
     = ApiStatus.error
  /\ hasAccess (step Sample.ready (Authenticate Scenario.studio_host_dismissed))
     = true
  /\ step Sample.locked (Authenticate Sample.keyless) = Sample.locked.
Proof.
  destruct (handleAuth_outcomes Scenario.studio_host Sample.locked)
    as (_ & G & _).
  destruct (handleAuth_outcomes Scenario.studio_host_dismissed Sample.ready)
    as (_ & _ & R & _).
  destruct (handleAuth_outcomes Sample.keyless Sample.locked)
    as (_ & _ & _ & N).
  destruct (R _ _ eq_refl eq_refl) as (R1 & R2 & _).
  exact (conj (proj1 (G _ eq_refl eq_refl))
           (conj R2 (conj R1 (proj1 (N eq_refl eq_refl))))).
Defined.

End Gate.

(** ** What holds in every state of the page *)

Module Invariants.
Import TraceFacts SessionFacts.

Lemma selections_app (a b : list Effect) :
  selections (a ++ b) = selections a ++ selections b.
Proof. apply flat_map_app. Qed.

Lemma selections_outputs (l : list string) : selections (map setOutput l) = [].
Proof. induction l as [|s l IH]; simpl; [reflexivity | exact IH]. Qed.

Lemma selections_scroll (env : Env) : selections (scroll env) = [].
Proof. unfold scroll. now destruct (terminal_view env). Qed.

(** The selected tool after a trace is the last one it was given, and no
    trace changes the active category. *)
Lemma selectedTool_run (tr : list Effect) (st : Store) :
  selectedTool (run st tr) = last (selections tr) (selectedTool st)
  /\ activeCategory (run st tr) = activeCategory st.
Proof.
  revert st; induction tr as [|e tr IH]; intros st; [now split|].
  change (run st (e :: tr)) with (run (apply st e) tr).
  destruct (IH (apply st e)) as [-> ->].
  destruct e; try (split; reflexivity).
  split; [|reflexivity].
  simpl selections. simpl selectedTool.
  destruct (selections tr) as [|t' l]; [reflexivity|].
  change (last (t' :: l) t = last (t' :: l) (selectedTool st)).
  apply last_cons_default.
Qed.

Lemma settle_selection (st : Store) (tr : list Effect) :
  selectedTool (settle st tr) = last (selections tr) (selectedTool st)
  /\ activeCategory (settle st tr) = activeCategory st.
Proof.
  destruct (selectedTool_run tr st) as [S C].
  unfold settle. destruct (vault_updates tr); now split.
Qed.

(** [handleGenerate] neither selects a tool nor removes the stored item,
    and sets the gate and the access flag only together. *)
Lemma generate_quiet (env : Env) (st : Store) :
  selections (trace (handleGenerate env st)) = []
  /\ removals (trace (handleGenerate env st)) = [].
Proof.
  destruct (accepted env st) eqn:A.
  - destruct (body_cases env st) as [(e & chunks & F) | (chunks & C)].
    + split; [|now apply (failed_no_record A F)].
      destruct (failed_trace A F) as (issued & I & ->).
      unfold trace, fst. rewrite catch_spec.
      change (new_GoogleGenAI (API_KEY env) :: issued
                ++ map setOutput (prefix_texts chunks))
        with ([new_GoogleGenAI (API_KEY env)] ++ issued
                ++ map setOutput (prefix_texts chunks)).
      rewrite !selections_app, selections_outputs, selections_scroll.
      destruct I as [-> | ->];
        (destruct (message_includes e "Requested entity was not found");
         [destruct (aistudio env) as [studio|];
          [destruct (openSelectKey studio) as [[]|e']|]|]);
        reflexivity.
    + rewrite (completed_trace A C). unfold trace, fst. split.
      * now rewrite !selections_app, selections_outputs, selections_scroll.
      * project env. reflexivity.
  - destruct (Controller.not_accepted_trace _ _ A) as [-> | ->]; now split.
Qed.






(** A trace that removes nothing keeps the snapshot in sync. *)
Lemma settle_in_sync (st : Store) (tr : list Effect) :
  snapshot_in_sync st -> removals tr = [] -> snapshot_in_sync (settle st tr).
Proof.
  unfold snapshot_in_sync, settle. intros Q R.
  destruct (vault_updates tr) eqn:V; [|reflexivity].
  now rewrite (wisian_history_run _ _ R), savedResources_run, V.
Qed.

Lemma react_in_sync (st : Store) (ev : Event) :
  snapshot_in_sync st -> snapshot_in_sync (react st ev).
Proof.
  intros Q.
  destruct ev as [[env|env|confirmed|env r|value|tool|env]|c|]; simpl react.
  - apply settle_in_sync; [exact Q | apply generate_quiet].
  - apply settle_in_sync; [exact Q|]. unfold handleAuth.
    destruct (aistudio env) as [studio|];
      [destruct (openSelectKey studio) as [[]|e]
      |destruct (Js.truthy_opt (API_KEY env))];
      reflexivity.
  - destruct confirmed; [reflexivity | exact Q].
  - apply settle_in_sync; [exact Q|]. unfold loadFromHistory.
    destruct (terminal_view env); reflexivity.
  - exact Q.
  - exact Q.
  - reflexivity.
  - unfold selectCategory. destruct (String.eqb c (activeCategory st));
      [exact Q|].
    apply settle_in_sync; [exact Q|]. unfold categoryEffect.
    destruct (find _ TOOLS_CONFIG); reflexivity.
  - exact Q.
Qed.

Lemma reacts_in_sync (events : list Event) (st : Store) :
  snapshot_in_sync st -> snapshot_in_sync (reacts st events).
Proof.
  revert st; induction events as [|ev events IH]; intros st S; [exact S|].
  apply IH, react_in_sync, S.
Qed.

(** X9: in every state the page reaches after loading, the snapshot
    stored under [wisian_history] is the vault itself; so loading the
    page again, on any host, brings back the same vault. *)
Theorem reload_restores_vault
  (env env' : Env) (item : option StoredText) (events : list Event) :
  let st := reacts (startup env item) events in
  wisian_history st = Some (WellFormed (savedResources st))
  /\ savedResources (react st (Act (Reload env'))) = savedResources st.
Proof.
  intros st.
  assert (Q : snapshot_in_sync st)
    by (apply reacts_in_sync; reflexivity).
  split; [exact Q|].
  simpl react. rewrite Q.
  apply (Vault.startup_vault env' (Some (WellFormed (savedResources st)))).
Qed.

(** X10: a confirmed purge empties the vault and keeps the output on
    screen; the stored item it removes is written again, as the empty
    array, by the persisting effect, and a reload then starts from an
    empty vault.  A declined purge changes nothing. *)
Theorem purge_empties_vault_and_snapshot (env : Env) (st : Store) :
  let st' := step st (ClearHistory true) in
  savedResources st' = []
  /\ wisian_history st' = Some (WellFormed [])
  /\ output st' = output st
  /\ savedResources (step st' (Reload env)) = []
  /\ step st (ClearHistory false) = st.
Proof.
  intros st'. subst st'. repeat split.
  apply (Vault.startup_vault env (Some (WellFormed []))).
Qed.

(** X11: only a generation, a confirmed purge and a reload can change the
    vault: authenticating, opening an entry of the history, typing or
    injecting a context, choosing a tool or a category leave the vault
    and the stored snapshot as they are. *)
Theorem other_events_leave_vault (st : Store) (ev : Event) :
  may_change_vault ev = false ->
  savedResources (react st ev) = savedResources st
  /\ wisian_history (react st ev) = wisian_history st.
Proof.
  intros H.
  destruct ev as [[env|env|confirmed|env r|value|tool|env]|c|];
    simpl react; try discriminate H.
  - unfold handleAuth.
    destruct (aistudio env) as [studio|];
      [destruct (openSelectKey studio) as [[]|e]
      |destruct (Js.truthy_opt (API_KEY env))];
      split; reflexivity.
  - destruct confirmed; [discriminate H | split; reflexivity].
  - unfold loadFromHistory. destruct (terminal_view env); split; reflexivity.
  - split; reflexivity.
  - split; reflexivity.
  - unfold selectCategory. destruct (String.eqb c (activeCategory st));
      [split; reflexivity|].
    unfold categoryEffect.
    destruct (find _ TOOLS_CONFIG); split; reflexivity.
  - split; reflexivity.
Qed.

Lemma other_events_leave_vault_sample :
  may_change_vault (Act (LoadFromHistory Sample.serving (Sample.entry 1)))
  = false
  /\ savedResources
       (react Sample.ready
          (Act (LoadFromHistory Sample.serving (Sample.entry 1))))
     = savedResources Sample.ready.
Proof.
  exact (conj eq_refl
           (proj1 (@other_events_leave_vault Sample.ready
                     (Act (LoadFromHistory Sample.serving (Sample.entry 1)))
                     eq_refl))).
Defined.

End Invariants.

(** ** The catalog and the selection *)

Module Catalog.
Import TraceFacts SessionFacts.

(** Every category of the catalog has a tool: the effect on
    [activeCategory] finds one. *)
Lemma category_has_tool (c : string) :
  In c (map cat_id TOOL_CATEGORIES) ->
  exists tool,
    find (fun t => String.eqb (categoryId t) c) TOOLS_CONFIG = Some tool.
Proof.
  intros H. simpl in H.
  destruct H as [<- | [<- | [<- | [<- | []]]]]; eexists; reflexivity.
Qed.

Lemma find_filtered (c : string) (tool : ToolConfig) :
  find (fun t => String.eqb (categoryId t) c) TOOLS_CONFIG = Some tool ->
  In tool (filteredTools c).
Proof.
  intros H. apply find_some in H as [I E].
  apply filter_In. now split.
Qed.

Lemma startup_selection (env : Env) (item : option StoredText) :
  selectedTool (startup env item) = nth 0 TOOLS_CONFIG default_tool
  /\ activeCategory (startup env item) = "leadership".
Proof.
  unfold startup, mount, checkAuth, categoryEffect.
  destruct item as [[| |snapshot]|];
    (destruct (aistudio env) as [studio|];
     [destruct (hasSelectedApiKey studio)
     |destruct (Js.truthy_opt (API_KEY env))]);
    split; reflexivity.
Qed.

Lemma startup_tool_in_category (env : Env) (item : option StoredText) :
  tool_in_category (startup env item).
Proof.
  unfold tool_in_category.
  destruct (startup_selection env item) as [-> ->].
  split; left; reflexivity.
Qed.

Lemma react_tool_in_category (st : Store) (ev : Event) :
  offered st ev -> tool_in_category st -> tool_in_category (react st ev).
Proof.
  intros O J.
  destruct ev as [[env|env|confirmed|env r|value|tool|env]|c|]; simpl react.
  - unfold tool_in_category.
    destruct (Invariants.settle_selection st (trace (handleGenerate env st)))
      as [-> ->].
    now rewrite (proj1 (Invariants.generate_quiet env st)).
  - unfold handleAuth.
    destruct (aistudio env) as [studio|];
      [destruct (openSelectKey studio) as [[]|e]
      |destruct (Js.truthy_opt (API_KEY env))];
      exact J.
  - destruct confirmed; exact J.
  - unfold loadFromHistory. destruct (terminal_view env); exact J.
  - exact J.
  - split; [exact O | exact (proj2 J)].
  - apply startup_tool_in_category.
  - unfold selectCategory.
    destruct (String.eqb c (activeCategory st)); [exact J|].
    destruct (category_has_tool O) as [tool F].
    unfold categoryEffect. simpl activeCategory. rewrite F.
    split; [exact (find_filtered c F) | exact O].
  - exact J.
Qed.

Lemma reacts_tool_in_category (events : list Event) (st : Store) :
  offered_run st events ->
  tool_in_category st ->
  tool_in_category (reacts st events).
Proof.
  revert st; induction events as [|ev events IH]; intros st O J; [exact J|].
  destruct O as [O R]. apply IH; [exact R|].
  now apply react_tool_in_category.
Qed.

(** X12: as long as the user picks tools among those listed and
    categories among those shown, the selected tool is a tool of the
    catalog that belongs to the active category, and the active category
    is a category of the catalog; so the category name written into a
    history entry is the name of the category of the tool that produced
    it. *)
Theorem selected_tool_belongs_to_active_category
  (env : Env) (item : option StoredText) (events : list Event) :
  offered_run (startup env item) events ->
  let st := reacts (startup env item) events in
  In (selectedTool st) TOOLS_CONFIG
  /\ categoryId (selectedTool st) = activeCategory st
  /\ exists c,
       In c TOOL_CATEGORIES
       /\ cat_id c = categoryId (selectedTool st)
       /\ activeCategoryName (activeCategory st) = cat_name c.
Proof.
  intros O st.
  destruct (reacts_tool_in_category _ O (startup_tool_in_category env item))
    as [T C].
  fold st in T, C.
  apply filter_In in T as [T E]. apply String.eqb_eq in E.
  split; [exact T|]. split; [exact E|].
  apply in_map_iff in C as (c & Hc & I). exists c.
  split; [exact I|]. split; [congruence|].
  rewrite <- Hc.
  exact (proj1 (Forall_forall _ _) Session.activeCategoryName_catalog c I).
Qed.

Lemma selected_tool_belongs_sample :
  offered_run (startup Sample.serving None) Scenario.session
  /\ categoryId
       (selectedTool (reacts (startup Sample.serving None) Scenario.session))
     = activeCategory (reacts (startup Sample.serving None) Scenario.session).
Proof.
  assert (O : offered_run (startup Sample.serving None) Scenario.session).
  { simpl. repeat split; auto. }
  exact (conj O
           (proj1 (proj2 (@selected_tool_belongs_to_active_category
                            Sample.serving None Scenario.session O)))).
Defined.

End Catalog.

(** ** The output terminal *)

Module TerminalFacts.
Import Terminal.
Local Open Scope string_scope.

Lemma split_lines_nonempty (s : string) : split_lines s <> [].
Proof.
  destruct s as [|c rest]; simpl; [discriminate|].
  destruct (Ascii.eqb c "010"); [discriminate|].
  destruct (split_lines rest); discriminate.
Qed.

Lemma split_lines_cons (c : ascii) (rest : string) :
  split_lines (String c rest) =
  if Ascii.eqb c "010"%char then "" :: split_lines rest
  else match split_lines rest with
       | [] => [String c ""]
       | line :: lines => String c line :: lines
       end.
Proof. reflexivity. Qed.

(** Splitting at a line feed splits the list of lines. *)
Lemma split_lines_app (a b : string) :
  split_lines (a ++ Js.LF ++ b) = (split_lines a ++ split_lines b)%list.
Proof.
  induction a as [|c a IH]; [reflexivity|].
  change (String c a ++ Js.LF ++ b) with (String c (a ++ Js.LF ++ b)).
  rewrite !split_lines_cons, IH.
  destruct (Ascii.eqb c "010"); [reflexivity|].
  destruct (split_lines a) as [|l ls] eqn:E; [|reflexivity].
  now elim (split_lines_nonempty a).
Qed.

Lemma split_lines_length (s : string) :
  length (split_lines s) = S (count_LF s).
Proof.
  induction s as [|c s IH]; [reflexivity|].
  simpl. destruct (Ascii.eqb c "010"); simpl; [now rewrite IH|].
  destruct (split_lines s) as [|l ls]; [discriminate IH | exact IH].
Qed.

(** X13: the terminal renders line by line: what is rendered for a text
    with a line feed in it is what is rendered for the part before the
    line feed followed by what is rendered for the part after it, so text
    appended after a line feed never changes the elements of the lines
    before it; and there is exactly one element per line, one more than
    there are line feeds (a single gap for the empty output). *)
Theorem lines_render_independently :
  (forall a b,
      markdown_content (a ++ Js.LF ++ b)
      = (markdown_content a ++ markdown_content b)%list)
  /\ (forall s, length (markdown_content s) = S (count_LF s))
  /\ markdown_content "" = [div_gap].
Proof.
  split; [|split; [|reflexivity]].
  - intros a b. unfold markdown_content.
    now rewrite split_lines_app, map_app.
  - intros s. unfold markdown_content.
    now rewrite length_map, split_lines_length.
Qed.

(** A white-space character is none of the characters a line is
    classified by. *)
Lemma space_is_no_marker (c : ascii) :
  Js.is_space c = true ->
  c <> "#"%char /\ c <> "*"%char /\ c <> "-"%char.
Proof.
  intros H. repeat split; intros ->; discriminate H.
Qed.

Lemma trim_keeps_head (c : ascii) (rest : string) :
  Js.is_space c = false ->
  Js.trim (String c rest) = String c (Js.trimEnd rest).
Proof.
  intros H. unfold Js.trim. simpl Js.trimStart. rewrite H.
  now apply JsFacts.trimEnd_keep.
Qed.

Lemma prefix_head (c : ascii) (rest : string) :
  String.prefix (String c "") (String c rest) = true.
Proof.
  simpl. destruct (ascii_dec c c) as [_|N]; [now destruct rest | now elim N].
Qed.

Lemma prefix_other_head (a c : ascii) (pattern rest : string) :
  a <> c -> String.prefix (String a pattern) (String c rest) = false.
Proof.
  intros N.
  change (String.prefix (String a pattern) (String c rest))
    with (if ascii_dec a c then String.prefix pattern rest else false).
  destruct (ascii_dec a c) as [E|_]; [now elim N | reflexivity].
Qed.

(** X14: a line that begins with a bullet mark, [-] or a single [*], is
    rendered as a list item without the mark.  A line that begins with
    white space and whose first visible character is a bullet mark is
    rendered as a list item too, but with the mark left in its text:
    the mark is looked for in the trimmed line and removed only at the
    very start of the untrimmed one. *)
Theorem bullet_mark_removed_only_at_line_start :
  (forall rest, renderLine (String "-" rest) = li (Js.trim rest))
  /\ (forall rest,
         String.prefix "*" rest = false ->
         renderLine (String "*" rest) = li (Js.trim rest))
  /\ (forall c rest,
         Js.is_space c = true ->
         String.prefix "-" (Js.trim (String c rest))
         || String.prefix "*" (Js.trim (String c rest)) = true ->
         renderLine (String c rest) = li (Js.trim (String c rest))).
Proof.
  split; [|split].
  - intros rest. unfold renderLine.
    change (String.prefix "###" (String "-" rest)) with false.
    change (String.prefix "**" (String "-" rest)) with false.
    rewrite (@trim_keeps_head "-" rest eq_refl), prefix_head.
    reflexivity.
  - intros rest H. unfold renderLine.
    change (String.prefix "###" (String "*" rest)) with false.
    change (String.prefix "**" (String "*" rest))
      with (String.prefix "*" rest).
    rewrite H, (@trim_keeps_head "*" rest eq_refl), prefix_head.
    rewrite orb_true_r. reflexivity.
  - intros c rest S H. unfold renderLine.
    destruct (space_is_no_marker c S) as (N1 & N2 & N3).
    assert (P1 : String.prefix "###" (String c rest) = false)
      by (apply prefix_other_head; congruence).
    assert (P2 : String.prefix "**" (String c rest) = false)
      by (apply prefix_other_head; congruence).
    rewrite P1, P2, H. unfold remove_marker.
    apply Ascii.eqb_neq in N2, N3. now rewrite N2, N3.
Qed.

Lemma bullet_mark_samples :
  String.prefix "*" " item" = false
  /\ renderLine "* item" = li "item"
  /\ Js.is_space " " = true
  /\ renderLine "  - item" = li "- item".
Proof.
  destruct bullet_mark_removed_only_at_line_start as (_ & B & C).
  exact (conj eq_refl
           (conj (B " item" eq_refl)
              (conj eq_refl (C " "%char " - item" eq_refl eq_refl)))).
Defined.

End TerminalFacts.

(** ** Bold paragraphs, and when the export controls show *)

Module TerminalMore.
Import Terminal.
Local Open Scope string_scope.

Lemma trimStart_suffix (s : string) : exists a, s = a ++ Js.trimStart s.
Proof.
  induction s as [|c s [a IH]]; [now exists ""|].
  simpl. destruct (Js.is_space c).
  - exists (String c a). simpl. now rewrite <- IH.
  - now exists "".
Qed.

Lemma trimEnd_prefix (s : string) : exists b, s = Js.trimEnd s ++ b.
Proof.
  induction s as [|c s [b IH]]; [now exists ""|].
  simpl. destruct (Js.trimEnd s) as [|c2 r2].
  - destruct (Js.is_space c).
    + now exists (String c s).
    + exists s. reflexivity.
  - exists b. simpl. now rewrite IH at 1.
Qed.

(** What is found in a trimmed string is found in the string. *)
Lemma includes_trim (needle s : string) :
  Js.includes needle (Js.trim s) = true -> Js.includes needle s = true.
Proof.
  intros H. apply JsFacts.includes_spec in H as (x & y & H).
  apply JsFacts.includes_spec.
  destruct (trimStart_suffix s) as [a A].
  destruct (trimEnd_prefix (Js.trimStart s)) as [b B].
  exists (a ++ x), (y ++ b).
  rewrite A at 1. rewrite B at 1. unfold Js.trim in H. rewrite H.
  now rewrite !JsFacts.append_assoc.
Qed.

Lemma remove_stars_keeps (c : ascii) (rest : string) :
  c <> "*"%char ->
  remove_stars (String c rest) = String c (remove_stars rest).
Proof.
  intros N. apply Ascii.eqb_neq in N.
  destruct rest as [|c' rest']; [reflexivity|].
  simpl. now rewrite N.
Qed.

Lemma remove_stars_single (c' : ascii) (rest : string) :
  c' <> "*"%char ->
  remove_stars (String "*" (String c' rest))
  = String "*" (remove_stars (String c' rest)).
Proof.
  intros N. apply Ascii.eqb_neq in N.
  change (remove_stars (String "*" (String c' rest)))
    with (if Ascii.eqb "*" "*" && Ascii.eqb c' "*"
          then remove_stars rest
          else String "*" (remove_stars (String c' rest))).
  now rewrite N.
Qed.

(** No pair of stars is left by [remove_stars]. *)
Lemma remove_stars_leaves_no_pair (s : string) :
  Js.includes "**" (remove_stars s) = false.
Proof.
  assert (G : forall n s, String.length s <= n ->
                          Js.includes "**" (remove_stars s) = false).
  { clear s. induction n as [|n IH]; intros s L.
    - destruct s; [reflexivity | simpl in L; lia].
    - destruct s as [|c [|c' rest]]; [reflexivity | |].
      + rewrite JsFacts.includes_unfold.
        change (remove_stars (String c "")) with (String c "").
        rewrite orb_false_r.
        destruct (ascii_dec "*" c) as [<-|N]; [reflexivity|].
        now apply TerminalFacts.prefix_other_head.
      + simpl in L.
        destruct (ascii_dec c "*") as [->|Nc].
        * destruct (ascii_dec c' "*") as [->|Nc'].
          -- change (remove_stars (String "*" (String "*" rest)))
               with (remove_stars rest).
             apply IH. lia.
          -- rewrite (remove_stars_single rest Nc').
             rewrite JsFacts.includes_unfold.
             rewrite (IH (String c' rest)) by (simpl; lia).
             rewrite (remove_stars_keeps rest Nc'), orb_false_r.
             change (String.prefix "**"
                       (String "*" (String c' (remove_stars rest))))
               with (if ascii_dec "*" "*"
                     then String.prefix "*" (String c' (remove_stars rest))
                     else false).
             destruct (ascii_dec "*" "*") as [_|N]; [|now elim N].
             apply TerminalFacts.prefix_other_head. congruence.
        * rewrite (remove_stars_keeps (String c' rest) Nc).
          rewrite JsFacts.includes_unfold.
          rewrite (IH (String c' rest)) by (simpl; lia).
          rewrite orb_false_r.
          apply TerminalFacts.prefix_other_head. congruence. }
  apply (G (String.length s)). lia.
Qed.

(** X15: a line that begins with two stars is rendered as a bold
    paragraph, and the text of that paragraph never contains a pair of
    stars: every pair of the line is removed, wherever it stands. *)
Theorem bold_paragraph_shows_no_star_pair (line : string) :
  String.prefix "**" line = true ->
  exists label,
    renderLine line = p_bold label
    /\ forall before after, label <> before ++ "**" ++ after.
Proof.
  intros H. exists (Js.trim (remove_stars line)). split.
  - unfold renderLine. rewrite H.
    destruct (JsFacts.prefix_split _ _ H) as [q ->].
    reflexivity.
  - intros before after E.
    assert (I : Js.includes "**" (Js.trim (remove_stars line)) = true)
      by (apply JsFacts.includes_spec; now exists before, after).
    apply includes_trim in I.
    now rewrite remove_stars_leaves_no_pair in I.
Qed.

Lemma bold_paragraph_sample :
  String.prefix "**" "**Directive:** use **bold**" = true
  /\ exists label,
       renderLine "**Directive:** use **bold**" = p_bold label
       /\ forall before after, label <> before ++ "**" ++ after.
Proof.
  exact (conj eq_refl
           (@bold_paragraph_shows_no_star_pair
              "**Directive:** use **bold**" eq_refl)).
Defined.

End TerminalMore.

(** ** Copy, export and share *)

Module ExportFacts.
Import TraceFacts SessionFacts.

Example bold_line_rendered :
  Terminal.renderLine "**Directive:** use **bold**"
  = Terminal.p_bold "Directive: use bold".
Proof. reflexivity. Qed.

(** X16: the Copy and Export buttons are hidden at every point strictly
    inside an accepted attempt, and they are shown once an invocation
    has been denied or an attempt has failed and its [catch] block has
    run to its end: the message published for an error can be copied
    and exported like a result. *)
Theorem export_controls_follow_the_attempt (env : Env) (st : Store) :
  (forall done rest,
      accepted env st = true ->
      trace (handleGenerate env st) = done ++ rest ->
      done <> [] -> rest <> [] ->
      Terminal.showsExport (run st done) = false)
  /\ (isGenerating st = false ->
      guard_passes env st = false ->
      Terminal.showsExport (settle st (trace (handleGenerate env st))) = true)
  /\ (forall e chunks,
         accepted env st = true ->
         Failure env st e chunks ->
         aistudio env = None
         \/ (exists studio,
               aistudio env = Some studio
               /\ openSelectKey studio = Resolves tt) ->
         Terminal.showsExport (settle st (trace (handleGenerate env st)))
         = true).
Proof.
  split; [|split].
  - intros done rest A E D R.
    destruct (@Session.invocation_inside_attempt_ignored env env st done rest
                A E D R)
      as [G _].
    unfold Terminal.showsExport. rewrite G. apply andb_false_r.
  - intros G P. rewrite (denied_trace env st G P).
    unfold Terminal.showsExport.
    rewrite settle_output, output_run, settle_isGenerating, isGenerating_run.
    cbn [published progress_trace flat_map app last].
    now rewrite G.
  - intros e chunks A F H.
    assert (N : reauth_throws env e = false).
    { unfold reauth_throws.
      destruct H as [-> | (studio & -> & ->)]; apply andb_false_r. }
    assert (I : isGenerating st = false).
    { unfold accepted in A. now destruct (isGenerating st). }
    unfold Terminal.showsExport.
    rewrite (failed_output A F), N, (Controller.indicator_cleared env st I).
    unfold failure_message.
    now destruct (message_includes e "API_KEY").
Qed.

Lemma export_controls_samples :
  isGenerating Sample.locked = false
  /\ guard_passes Sample.keyless Sample.locked = false
  /\ Terminal.showsExport
       (settle Sample.locked
          (trace (handleGenerate Sample.keyless Sample.locked)))
     = true
  /\ Terminal.showsExport
       (settle Sample.ready
          (trace (handleGenerate Sample.stale_reselected Sample.ready)))
     = true.
Proof.
  destruct (export_controls_follow_the_attempt Sample.keyless Sample.locked)
    as (_ & D & _).
  destruct (export_controls_follow_the_attempt Sample.stale_reselected
              Sample.ready) as (_ & _ & F).
  assert (K : Failure Sample.stale_reselected Sample.ready Sample.not_found
                [mkChunk "Partial "]) by now apply StreamFaults.
  exact (conj eq_refl
           (conj eq_refl
              (conj (D eq_refl eq_refl)
                 (F _ _ eq_refl K
                    (or_intror
                       (ex_intro _ Sample.studio_ok
                          (conj eq_refl eq_refl))))))).
Defined.

Lemma length_append (a b : string) :
  String.length (a ++ b) = String.length a + String.length b.
Proof. induction a as [|c a IH]; simpl; [reflexivity | now rewrite IH]. Qed.

Lemma slice0_length (n : nat) (s : string) :
  String.length (Sharing.slice0 n s) = min n (String.length s).
Proof.
  revert s; induction n as [|n IH]; intros s; [reflexivity|].
  destruct s as [|c s]; [reflexivity|]. simpl. now rewrite IH.
Qed.

Lemma slice0_all (n : nat) (s : string) :
  String.length s <= n -> Sharing.slice0 n s = s.
Proof.
  revert s; induction n as [|n IH]; intros s L.
  - destruct s; [reflexivity | simpl in L; lia].
  - destruct s as [|c s]; [reflexivity|].
    simpl in *. rewrite IH; [reflexivity | lia].
Qed.

(** X17: the text handed to [navigator.share] is the first hundred
    characters of the output followed by three dots, so it never exceeds
    103 characters; the dots are appended to a short output too, which
    is then shared whole with the dots after it. *)
Theorem shared_text_is_an_excerpt (browser : Sharing.Browser) (st : Store) :
  let shared := Sharing.share_text (Sharing.shareData browser st) in
  String.length shared <= 103
  /\ (String.length (output st) <= 100 ->
      shared = (output st ++ "...")%string)
  /\ (100 < String.length (output st) -> String.length shared = 103).
Proof.
  intros shared. subst shared.
  change (Sharing.share_text (Sharing.shareData browser st))
    with (Sharing.slice0 100 (output st) ++ "...")%string.
  rewrite !length_append, !slice0_length.
  change (String.length "...") with 3.
  split; [lia|]. split.
  - intros L. now rewrite slice0_all.
  - intros L. lia.
Qed.

Lemma shared_text_sample :
  String.length (output Sample.streaming) <= 100
  /\ Sharing.share_text
       (Sharing.shareData (Sharing.mkBrowser None "https://wisian.example/")
          Sample.streaming)
     = "Hello ...".
Proof.
  assert (L : String.length (output Sample.streaming) <= 100)
    by (simpl; lia).
  exact (conj L
           (proj1 (proj2 (shared_text_is_an_excerpt
                            (Sharing.mkBrowser None "https://wisian.example/")
                            Sample.streaming)) L)).
Defined.

End ExportFacts.
